(** * Waku mini chat: the cryptographic messaging core

    A shallow embedding of [src/sdk/crypto.ts] (canonical serialization,
    signing, key derivation, payload encryption), of [src/sdk/types.ts] and
    of the [ChatClient] class of [src/sdk/chatClient.ts] (message store,
    tombstones, send and receive paths), followed by the properties
    established about them.  Line numbers are those of the source file
    [src/sdk/crypto.ts], which holds the text of crypto.ts (lines 1-95)
    followed by that of chatClient.ts (lines 96-546).

    Conventions of the embedding:
    - a JavaScript string is a [string] of bytes (the UTF-8 form of a
      well-formed string), so [TextEncoder.encode] is the list of its bytes;
      the default [Array.prototype.sort] order on keys is the byte-wise
      lexicographic order [String.le] (the two agree on ASCII keys, which is
      what every envelope uses);
    - a [Uint8Array] is a [list byte];
    - a JavaScript number that the code handles ([v], [timestamp]) is an
      integer, a [Z], printed in decimal by [JSON.stringify];
    - [Date.now()] and freshly drawn random bytes are inputs of the
      operation that reads them, and so is what the transport answers;
    - a method runs in the monad [M]: it ends by returning or throwing,
      leaves a client, and has effects in order (events delivered to
      listeners, envelopes handed to the transport, error lines); a listener
      is an identifier, and calling it records the delivery and nothing
      else;
    - the primitives of the noble libraries and of Node's [Buffer] are the
      fields of the class [Crypto]; what a theorem needs of them is a named
      law it takes as a hypothesis. *)

From stdpp Require Import gmap strings list sorting pretty finite.
From Stdlib Require Import Strings.Byte Strings.Ascii.

Local Open Scope string_scope.

Abbreviation bytes := (list byte).

#[global] Instance byte_eq_decision : EqDecision byte.
Proof.
  refine (λ x y,
    match Byte.eqb x y as b return Byte.eqb x y = b → Decision (x = y) with
    | true => λ Heq, left _
    | false => λ Hne, right _
    end eq_refl).
  - by apply Byte.byte_dec_bl.
  - intros Heq. apply Byte.byte_dec_lb in Heq. congruence.
Defined.

(** ** JavaScript values handed to the canonical serializer *)

#[warnings="-register-all"]
Inductive JValue : Type :=
  | JUndefined
  | JNull
  | JBool (b : bool)
  | JNum (n : Z)
  | JStr (s : string)
  | JArr (items : list JValue)
  | JObj (fields : list (string * JValue)).

(** [record[key]]: the value of the first field named [key]. *)
Fixpoint record_get {A} (fields : list (string * A)) (key : string) : option A :=
  match fields with
  | [] => None
  | (k, v) :: rest => if decide (k = key) then Some v else record_get rest key
  end.

(** [Object.keys(record)], in insertion order. *)
Definition Object_keys {A} (fields : list (string * A)) : list string :=
  map fst fields.


(** ** [JSON.stringify] on primitives *)

Definition dquote : string := String "034"%char "".
Definition backslash : string := String "092"%char "".

Definition hex_digit (n : N) : ascii :=
  match n with
  | 0 => "0" | 1 => "1" | 2 => "2" | 3 => "3" | 4 => "4" | 5 => "5"
  | 6 => "6" | 7 => "7" | 8 => "8" | 9 => "9" | 10 => "a" | 11 => "b"
  | 12 => "c" | 13 => "d" | 14 => "e" | _ => "f"
  end%char%N.

(** The escape of one character inside a JSON string literal: the two-letter
    escapes of ECMAScript's QuoteJSONString, [\u00XX] for the other control
    characters, the character itself otherwise. *)
Definition json_escape_char (c : ascii) : string :=
  let n := N_of_ascii c in
  if decide (n = 8)%N then backslash +:+ "b"
  else if decide (n = 9)%N then backslash +:+ "t"
  else if decide (n = 10)%N then backslash +:+ "n"
  else if decide (n = 12)%N then backslash +:+ "f"
  else if decide (n = 13)%N then backslash +:+ "r"
  else if decide (n = 34)%N then backslash +:+ dquote
  else if decide (n = 92)%N then backslash +:+ backslash
  else if decide (n < 32)%N then
    backslash +:+ "u00" +:+
      String (hex_digit (n `div` 16)) (String (hex_digit (n `mod` 16)) "")
  else String c "".

Fixpoint json_escape (s : string) : string :=
  match s with
  | EmptyString => ""
  | String c rest => json_escape_char c +:+ json_escape rest
  end.

Definition json_quote (s : string) : string :=
  dquote +:+ json_escape s +:+ dquote.

(** [JSON.stringify(value)] for a value that is neither an array nor a
    non-null object; [None] is JavaScript's [undefined]. *)
Definition JSON_stringify_prim (value : JValue) : option string :=
  match value with
  | JUndefined => None
  | JNull => Some "null"
  | JBool true => Some "true"
  | JBool false => Some "false"
  | JNum n => Some (pretty n)
  | JStr s => Some (json_quote s)
  | JArr _ | JObj _ => None
  end.

(** [Array.prototype.join]: [undefined] items are rendered empty. *)
Fixpoint join_with (sep : string) (items : list string) : string :=
  match items with
  | [] => ""
  | [x] => x
  | x :: rest => x +:+ sep +:+ join_with sep rest
  end.

Definition array_join (sep : string) (items : list (option string)) : string :=
  join_with sep (map (default "") items).

(** A template literal renders [undefined] as the word. *)
Definition template (x : option string) : string := default "undefined" x.

(** ** crypto.ts *)

Module crypto.

(** [stableStringify], lines 27-37.  The object case is written over the
    fields rendered once ([rendered]); [stableStringify_object] below gives
    the equation in the shape of the source, [record[key]] rendered per
    sorted key. *)
Fixpoint stableStringify (value : JValue) : option string :=
  match value with
  | JArr items =>
      Some ("[" +:+ array_join "," (map stableStringify items) +:+ "]")
  | JObj fields =>
      let rendered := map (λ kv, (kv.1, stableStringify kv.2)) fields in
      let keys := merge_sort String.le (Object_keys fields) in
      Some ("{" +:+
            join_with ","
              (map (λ key, dquote +:+ key +:+ dquote +:+ ":" +:+
                           template (mjoin (record_get rendered key))) keys)
            +:+ "}")
  | _ => JSON_stringify_prim value
  end.

(** [textEncoder.encode]; an [undefined] argument encodes as the empty
    string. *)
Definition textEncoder_encode (s : option string) : bytes :=
  String.list_byte_of_string (default "" s).

Definition textDecoder_decode (b : bytes) : string :=
  String.string_of_list_byte b.

(** The primitives crypto.ts imports: Node's [Buffer] base64 codec,
    [@noble/hashes] ([sha256], [hkdf] over sha256), [@noble/curves]
    ([x25519], [ed25519]) and [@noble/ciphers] ([xchacha20poly1305], whose
    [decrypt] throws on a tag mismatch: [None]).  They are total here: what
    the libraries do on keys, nonces or signatures of the wrong length is
    outside the model, and [ed25519_verify] answers [false] where it does
    not accept. *)
Class Crypto := {
  toBase64 : bytes → string;
  fromBase64 : string → bytes;
  sha256 : bytes → bytes;
  hkdf : bytes → bytes → bytes → nat → bytes;
  x25519_getPublicKey : bytes → bytes;
  x25519_getSharedSecret : bytes → bytes → bytes;
  ed25519_getPublicKey : bytes → bytes;
  ed25519_sign : bytes → bytes → bytes;
  ed25519_verify : bytes → bytes → bytes → bool;
  xchacha20poly1305_encrypt : bytes → bytes → bytes → bytes;
  xchacha20poly1305_decrypt : bytes → bytes → bytes → option bytes;
}.

(** What the libraries promise of these primitives. *)
Definition base64_roundtrip (C : Crypto) : Prop :=
  ∀ data, fromBase64 (toBase64 data) = data.
Definition ed25519_correct (C : Crypto) : Prop :=
  ∀ msg sk, ed25519_verify (ed25519_sign msg sk) msg (ed25519_getPublicKey sk) = true.
Definition x25519_agreement (C : Crypto) : Prop :=
  ∀ skA skB,
    x25519_getSharedSecret skA (x25519_getPublicKey skB)
    = x25519_getSharedSecret skB (x25519_getPublicKey skA).

Section WithCrypto.
Context {C : Crypto}.

(** [signPayload], lines 39-43. *)
Definition signPayload (payload : JValue) (privateKey : bytes) : string :=
  let msg := textEncoder_encode (stableStringify payload) in
  let signature := ed25519_sign msg privateKey in
  toBase64 signature.

(** [verifyPayload], lines 45-53. *)
Definition verifyPayload (payload : JValue) (signatureBase64 : string)
    (publicKey : bytes) : bool :=
  let msg := textEncoder_encode (stableStringify payload) in
  let signature := fromBase64 signatureBase64 in
  ed25519_verify signature msg publicKey.

(** [deriveDirectKey], lines 55-64. *)
Definition deriveDirectKey (conversationId : string)
    (localPrivateKey remotePublicKey : bytes) : bytes :=
  let sharedSecret := x25519_getSharedSecret localPrivateKey remotePublicKey in
  let salt := sha256 (textEncoder_encode (Some "waku-chat")) in
  let info := textEncoder_encode (Some ("direct:" +:+ conversationId)) in
  hkdf sharedSecret salt info 32.

(** [deriveGroupKey], lines 66-70. *)
Definition deriveGroupKey (conversationId : string) (sharedKey : bytes) : bytes :=
  let salt := sha256 (textEncoder_encode (Some "waku-chat")) in
  let info := textEncoder_encode (Some ("group:" +:+ conversationId)) in
  hkdf sharedKey salt info 32.

(** [encryptPayload], lines 72-80; [nonce] is the 24 random bytes the
    source draws. *)
Definition encryptPayload (nonce : bytes) (plaintext : string) (key : bytes)
    : string * string :=
  let ciphertext :=
    xchacha20poly1305_encrypt key nonce (textEncoder_encode (Some plaintext)) in
  (toBase64 nonce, toBase64 ciphertext).

(** [decryptPayload], lines 82-88; [None] when [cipher.decrypt] throws. *)
Definition decryptPayload (ciphertextBase64 nonceBase64 : string) (key : bytes)
    : option string :=
  let nonce := fromBase64 nonceBase64 in
  let ciphertext := fromBase64 ciphertextBase64 in
  plaintext ← xchacha20poly1305_decrypt key nonce ciphertext;
  Some (textDecoder_decode plaintext).

(** [sha256Base64] and [canonicalId], lines 90-95. *)
Definition sha256Base64 (data : bytes) : string := toBase64 (sha256 data).

Definition canonicalId (parts : list string) : string :=
  let payload := textEncoder_encode (Some (join_with "|" parts)) in
  sha256Base64 payload.
End WithCrypto.

End crypto.


(** ** types.ts *)

Module types.

Inductive ConversationType := direct | group.

Record Identity := {
  identity_id : string;
  ed25519PrivateKey : bytes;
  ed25519PublicKey : bytes;
  x25519PrivateKey : bytes;
  x25519PublicKey : bytes;
}.

Record Participant := {
  participant_id : string;
  participant_ed25519PublicKey : bytes;
  participant_x25519PublicKey : bytes;
}.

Record ConversationConfig := {
  conversation_id : string;
  conversation_type : ConversationType;
  participants : list Participant;
  sharedKeyBase64 : option string;
  adminIds : option (list string);
}.

Record ChatMessage := {
  message_id : string;
  message_conversationId : string;
  senderId : string;
  text : string;
  timestamp : Z;
  revoked : bool;
  deleted : bool;
}.

Record Tombstone := {
  targetMessageId : string;
  issuerId : string;
  tombstone_timestamp : Z;
}.

Inductive ChatEvent :=
  | message_event (message : ChatMessage)
  | tombstone_event (tombstone : Tombstone).

#[global] Instance ConversationType_eq_dec : EqDecision ConversationType.
Proof. solve_decision. Defined.
#[global] Instance ChatMessage_eq_dec : EqDecision ChatMessage.
Proof. solve_decision. Defined.
#[global] Instance Tombstone_eq_dec : EqDecision Tombstone.
Proof. solve_decision. Defined.

End types.

Import crypto types.

(** [createIdentity], lines 12-25; the two private keys are the
    random draws. *)
Definition createIdentity `{Crypto} (ed25519PrivateKey x25519PrivateKey : bytes)
    : Identity :=
  let ed25519PublicKey := ed25519_getPublicKey ed25519PrivateKey in
  let x25519PublicKey := x25519_getPublicKey x25519PrivateKey in
  let id := toBase64 ed25519PublicKey in
  {| identity_id := id;
     ed25519PrivateKey := ed25519PrivateKey;
     ed25519PublicKey := ed25519PublicKey;
     x25519PrivateKey := x25519PrivateKey;
     x25519PublicKey := x25519PublicKey |}.

(** ** chatClient.ts: data *)

Inductive WireType := chat | tombstone.

#[global] Instance WireType_eq_dec : EqDecision WireType.
Proof. solve_decision. Defined.

(** [WireMessage], lines 119-132. *)
Record WireMessage := {
  wire_v : Z;
  wire_type : WireType;
  wire_conversationId : string;
  wire_messageId : string;
  wire_senderId : string;
  wire_senderEd25519 : string;
  wire_senderX25519 : string;
  wire_timestamp : Z;
  wire_nonce : option string;
  wire_ciphertext : option string;
  wire_targetMessageId : option string;
  wire_signature : string;
}.

(** A registered callback, known by its identity. *)
Definition SubscriptionHandler := nat.

(** An encoder or decoder of the transport, known by its content topic. *)
Definition IEncoder := string.
Definition IDecoder := string.

Inductive LightNode := light_node.

Record ChatClientConfig := {
  contentTopicPrefix : string;
  bootstrapPeers : list string;
  defaultBootstrap : bool;
  peerWaitTimeoutMs : Z;
  sendTimeoutMs : Z;
  sendMaxAttempts : Z;
}.

(** The fields of a [ChatClient] (lines 147-157).  [subscriptionPromises],
    the handles of subscriptions in flight, has no counterpart: every
    operation below runs to its end before the next one starts. *)
Record ChatClient := {
  identity : Identity;
  waku : option LightNode;
  config : ChatClientConfig;
  conversations : gmap string ConversationConfig;
  handlers : gmap string (list SubscriptionHandler);
  decoderCache : gmap string IDecoder;
  encoderCache : gmap string IEncoder;
  messages : gmap string ChatMessage;
  subscribed : gset string;
  pendingTombstones : gmap string Tombstone;
}.

Definition set_waku (w : option LightNode) (self : ChatClient) : ChatClient :=
  {| identity := identity self; waku := w; config := config self;
     conversations := conversations self; handlers := handlers self;
     decoderCache := decoderCache self; encoderCache := encoderCache self;
     messages := messages self; subscribed := subscribed self;
     pendingTombstones := pendingTombstones self |}.
Definition set_conversations (f : gmap string ConversationConfig → gmap string ConversationConfig)
    (self : ChatClient) : ChatClient :=
  {| identity := identity self; waku := waku self; config := config self;
     conversations := f (conversations self); handlers := handlers self;
     decoderCache := decoderCache self; encoderCache := encoderCache self;
     messages := messages self; subscribed := subscribed self;
     pendingTombstones := pendingTombstones self |}.
Definition set_handlers
    (f : gmap string (list SubscriptionHandler) → gmap string (list SubscriptionHandler))
    (self : ChatClient) : ChatClient :=
  {| identity := identity self; waku := waku self; config := config self;
     conversations := conversations self; handlers := f (handlers self);
     decoderCache := decoderCache self; encoderCache := encoderCache self;
     messages := messages self; subscribed := subscribed self;
     pendingTombstones := pendingTombstones self |}.
Definition set_decoderCache (f : gmap string IDecoder → gmap string IDecoder)
    (self : ChatClient) : ChatClient :=
  {| identity := identity self; waku := waku self; config := config self;
     conversations := conversations self; handlers := handlers self;
     decoderCache := f (decoderCache self); encoderCache := encoderCache self;
     messages := messages self; subscribed := subscribed self;
     pendingTombstones := pendingTombstones self |}.
Definition set_encoderCache (f : gmap string IEncoder → gmap string IEncoder)
    (self : ChatClient) : ChatClient :=
  {| identity := identity self; waku := waku self; config := config self;
     conversations := conversations self; handlers := handlers self;
     decoderCache := decoderCache self; encoderCache := f (encoderCache self);
     messages := messages self; subscribed := subscribed self;
     pendingTombstones := pendingTombstones self |}.
Definition set_messages (f : gmap string ChatMessage → gmap string ChatMessage)
    (self : ChatClient) : ChatClient :=
  {| identity := identity self; waku := waku self; config := config self;
     conversations := conversations self; handlers := handlers self;
     decoderCache := decoderCache self; encoderCache := encoderCache self;
     messages := f (messages self); subscribed := subscribed self;
     pendingTombstones := pendingTombstones self |}.
Definition set_subscribed (f : gset string → gset string)
    (self : ChatClient) : ChatClient :=
  {| identity := identity self; waku := waku self; config := config self;
     conversations := conversations self; handlers := handlers self;
     decoderCache := decoderCache self; encoderCache := encoderCache self;
     messages := messages self; subscribed := f (subscribed self);
     pendingTombstones := pendingTombstones self |}.
Definition set_pendingTombstones (f : gmap string Tombstone → gmap string Tombstone)
    (self : ChatClient) : ChatClient :=
  {| identity := identity self; waku := waku self; config := config self;
     conversations := conversations self; handlers := handlers self;
     decoderCache := decoderCache self; encoderCache := encoderCache self;
     messages := messages self; subscribed := subscribed self;
     pendingTombstones := f (pendingTombstones self) |}.

(** In-place updates of a stored message. *)
Definition set_revoked (b : bool) (m : ChatMessage) : ChatMessage :=
  {| message_id := message_id m; message_conversationId := message_conversationId m;
     senderId := senderId m; text := text m; timestamp := timestamp m;
     revoked := b; deleted := deleted m |}.
Definition set_deleted (b : bool) (m : ChatMessage) : ChatMessage :=
  {| message_id := message_id m; message_conversationId := message_conversationId m;
     senderId := senderId m; text := text m; timestamp := timestamp m;
     revoked := revoked m; deleted := b |}.

(** ** What a method does besides changing the client *)

Inductive Effect :=
  (** [handler(event)]: an event reaches a listener *)
  | Delivered (handler : SubscriptionHandler) (event : ChatEvent)
  (** [node.lightPush.send(encoder, {payload, ...})]: an envelope is handed
      to the transport *)
  | LightPushSend (encoder : IEncoder) (envelope : WireMessage)
  (** [node.filter.subscribe([decoder], callback)] *)
  | FilterSubscribe (decoder : IDecoder)
  (** [console.error(...)] *)
  | ConsoleError (line : string).

Inductive Outcome (A : Type) :=
  | Returned (a : A)
  | Thrown (error : string).
Arguments Returned {A} a.
Arguments Thrown {A} error.

(** A run of a method: how it ended, the client it left, and the effects it
    had in order.  A method that throws keeps the changes made before the
    throw, as in JavaScript. *)
Record Run (A : Type) := {
  outcome : Outcome A;
  final : ChatClient;
  effects : list Effect;
}.
Arguments outcome {A} r.
Arguments final {A} r.
Arguments effects {A} r.

Definition M (A : Type) : Type := ChatClient → Run A.

#[global] Instance M_ret : MRet M := λ A a self,
  {| outcome := Returned a; final := self; effects := [] |}.
#[global] Instance M_bind : MBind M := λ A B k m self,
  let r := m self in
  match outcome r with
  | Thrown e => {| outcome := Thrown e; final := final r; effects := effects r |}
  | Returned a =>
      let r' := k a (final r) in
      {| outcome := outcome r'; final := final r';
         effects := effects r ++ effects r' |}
  end.

Definition throw {A} (error : string) : M A := λ self,
  {| outcome := Thrown error; final := self; effects := [] |}.
Definition this : M ChatClient := λ self,
  {| outcome := Returned self; final := self; effects := [] |}.
Definition update (f : ChatClient → ChatClient) : M unit := λ self,
  {| outcome := Returned (); final := f self; effects := [] |}.
Definition perform (e : list Effect) : M unit := λ self,
  {| outcome := Returned (); final := self; effects := e |}.
(** [try { body } catch (error) { handler(error) }] *)
Definition try_catch {A} (body : M A) (handler : string → M A) : M A := λ self,
  let r := body self in
  match outcome r with
  | Returned a => r
  | Thrown e =>
      let r' := handler e (final r) in
      {| outcome := outcome r'; final := final r';
         effects := effects r ++ effects r' |}
  end.

(** ** chatClient.ts: the methods of [ChatClient] *)

(** What the transport answered to one [lightPush.send] raced against the
    send timeout by [withTimeout] (lines 526-538): the promise resolved with
    so many successes, it rejected, or the timer fired first. *)
Inductive SendOutcome :=
  | send_resolves (successes : nat)
  | send_rejects (error : string)
  | send_times_out.

(** A message of the transport as [handleDecodedMessage] reads it: no
    payload, or payload bytes on which [JSON.parse] throws, or payload bytes
    it parses, read as a [WireMessage] (the source casts, it does not
    check). *)
Inductive Payload :=
  | not_json
  | json (parsed : WireMessage).
Record IDecodedMessage := { payload : option Payload }.

Definition default_config : ChatClientConfig :=
  {| contentTopicPrefix := "/waku-chat/1"; bootstrapPeers := [];
     defaultBootstrap := true; peerWaitTimeoutMs := 8000;
     sendTimeoutMs := 12000; sendMaxAttempts := 3 |}.

(** The constructor, lines 159-170. *)
Definition new_ChatClient (identity : Identity) (config : ChatClientConfig) : ChatClient :=
  {| identity := identity; waku := None; config := config;
     conversations := ∅; handlers := ∅; decoderCache := ∅; encoderCache := ∅;
     messages := ∅; subscribed := ∅; pendingTombstones := ∅ |}.

Definition wire_type_name (t : WireType) : string :=
  match t with chat => "chat" | tombstone => "tombstone" end.

Definition JStr_opt (x : option string) : JValue :=
  match x with Some s => JStr s | None => JUndefined end.

(** [signaturePayload], lines 498-524. *)
Definition signaturePayload (message : WireMessage) : JValue :=
  if decide (wire_type message = tombstone) then
    JObj [("v", JNum (wire_v message));
          ("type", JStr (wire_type_name (wire_type message)));
          ("conversationId", JStr (wire_conversationId message));
          ("messageId", JStr (wire_messageId message));
          ("senderId", JStr (wire_senderId message));
          ("senderEd25519", JStr (wire_senderEd25519 message));
          ("senderX25519", JStr (wire_senderX25519 message));
          ("timestamp", JNum (wire_timestamp message));
          ("targetMessageId", JStr_opt (wire_targetMessageId message))]
  else
    JObj [("v", JNum (wire_v message));
          ("type", JStr (wire_type_name (wire_type message)));
          ("conversationId", JStr (wire_conversationId message));
          ("messageId", JStr (wire_messageId message));
          ("senderId", JStr (wire_senderId message));
          ("senderEd25519", JStr (wire_senderEd25519 message));
          ("senderX25519", JStr (wire_senderX25519 message));
          ("timestamp", JNum (wire_timestamp message));
          ("nonce", JStr_opt (wire_nonce message));
          ("ciphertext", JStr_opt (wire_ciphertext message))].

(** [canRevoke], lines 324-330. *)
Definition canRevoke (conversation : ConversationConfig)
    (issuerId originalSenderId : string) : bool :=
  if decide (issuerId = originalSenderId) then true
  else
    let admins := default [] (adminIds conversation) in
    bool_decide (issuerId ∈ admins).

Section Methods.
Context {C : Crypto}.

(** [contentTopicFor], lines 494-496. *)
Definition contentTopicFor (conversationId : string) : M string :=
  self ← this;
  mret (contentTopicPrefix (config self) +:+ "/" +:+ conversationId +:+ "/json").

(** [requireNode], lines 540-545. *)
Definition requireNode : M LightNode :=
  self ← this;
  match waku self with
  | None => throw "Client not initialized"
  | Some node => mret node
  end.

(** [init], lines 172-196; [peers] tells whether [waitForPeers] resolved
    within the timeout. *)
Definition init (peers : bool) : M unit :=
  self ← this;
  if peers then update (set_waku (Some light_node))
  else throw ("Failed to connect to Waku peers within " +:+
              pretty (peerWaitTimeoutMs (config self)) +:+ "ms. " +:+
              "Ensure the local node is running or WAKU_BOOTSTRAP is set.").

(** [joinConversation], lines 204-206. *)
Definition joinConversation (config : ConversationConfig) : M unit :=
  update (set_conversations (insert (conversation_id config) config)).

(** [leaveConversation], lines 208-213. *)
Definition leaveConversation (conversationId : string) : M unit :=
  _ ← update (set_conversations (delete conversationId));
  _ ← update (set_handlers (delete conversationId));
  update (set_subscribed (λ s, s ∖ {[conversationId]})).

(** [getDecoder], lines 403-413. *)
Definition getDecoder (conversationId : string) : M IDecoder :=
  self ← this;
  match decoderCache self !! conversationId with
  | Some cached => mret cached
  | None =>
      _ ← requireNode;
      contentTopic ← contentTopicFor conversationId;
      let decoder : IDecoder := contentTopic in
      _ ← update (set_decoderCache (insert conversationId decoder));
      mret decoder
  end.

(** [getEncoder], lines 362-372. *)
Definition getEncoder (conversationId : string) : M IEncoder :=
  self ← this;
  match encoderCache self !! conversationId with
  | Some cached => mret cached
  | None =>
      _ ← requireNode;
      contentTopic ← contentTopicFor conversationId;
      let encoder : IEncoder := contentTopic in
      _ ← update (set_encoderCache (insert conversationId encoder));
      mret encoder
  end.

(** [subscribeInternal], lines 391-401; [success] is the transport's
    answer. *)
Definition subscribeInternal (success : bool) (conversationId : string) : M unit :=
  _ ← requireNode;
  decoder ← getDecoder conversationId;
  _ ← perform [FilterSubscribe decoder];
  if success then update (set_subscribed (λ s, {[conversationId]} ∪ s))
  else throw "Subscribe failed".

(** [ensureSubscribed], lines 374-389, for a caller that finds no
    subscription in flight. *)
Definition ensureSubscribed (success : bool) (conversationId : string) : M unit :=
  self ← this;
  if decide (conversationId ∈ subscribed self) then mret ()
  else subscribeInternal success conversationId.

(** [subscribe], lines 215-226: the handler joins the conversation's set;
    the subscription it starts is not awaited, its failure is dropped. *)
Definition subscribe (success : bool) (conversationId : string)
    (handler : SubscriptionHandler) : M unit :=
  self ← this;
  let set := default [] (handlers self !! conversationId) in
  let set := if decide (handler ∈ set) then set else (set ++ [handler])%list in
  _ ← update (set_handlers (insert conversationId set));
  try_catch (ensureSubscribed success conversationId) (λ _, mret ()).

(** The function [subscribe] returns, lines 220-225. *)
Definition unsubscribe (conversationId : string)
    (handler : SubscriptionHandler) : M unit :=
  self ← this;
  match handlers self !! conversationId with
  | Some set =>
      update (set_handlers
                (insert conversationId (filter (λ h, h ≠ handler) set)))
  | None => mret ()
  end.


(** [getMessage], lines 232-234. *)
Definition getMessage (messageId : string) : M (option ChatMessage) :=
  self ← this;
  mret (messages self !! messageId).

(** [listMessages], lines 236-240.  The answer holds the values of the
    messages map in the order of the map's keys; the source has them in the
    order of their insertion, which the map does not keep, so the statements
    about the answer speak of its members only. *)
Definition listMessages (conversationId : string) : M (list ChatMessage) :=
  self ← this;
  mret (filter (λ message, message_conversationId message = conversationId ∧
                           deleted message = false)
               (map_to_list (messages self)).*2).

(** [deleteMessage], lines 242-247. *)
Definition deleteMessage (messageId : string) : M unit :=
  self ← this;
  match messages self !! messageId with
  | Some message =>
      update (set_messages (insert messageId (set_deleted true message)))
  | None => mret ()
  end.

(** [emit], lines 484-492. *)
Definition emit (conversationId : string) (event : ChatEvent) : M unit :=
  self ← this;
  match handlers self !! conversationId with
  | None => mret ()
  | Some handlers => perform (map (λ handler, Delivered handler event) handlers)
  end.

(** [getConversation], lines 316-322. *)
Definition getConversation (conversationId : string) : M ConversationConfig :=
  self ← this;
  match conversations self !! conversationId with
  | None => throw ("Conversation " +:+ conversationId +:+ " not found")
  | Some conversation => mret conversation
  end.

(** [deriveConversationKey], lines 332-345. *)
Definition deriveConversationKey (conversation : ConversationConfig) : M bytes :=
  self ← this;
  if decide (conversation_type conversation = group) then
    match sharedKeyBase64 conversation with
    | None | Some "" => throw "Group conversation requires shared key"
    | Some sharedKeyBase64 =>
        let sharedKey := fromBase64 sharedKeyBase64 in
        mret (deriveGroupKey (conversation_id conversation) sharedKey)
    end
  else
    match List.find (λ p, bool_decide (participant_id p ≠ identity_id (identity self)))
               (participants conversation) with
    | None => throw "Direct conversation requires remote participant"
    | Some remote =>
        mret (deriveDirectKey (conversation_id conversation)
                (x25519PrivateKey (identity self))
                (participant_x25519PublicKey remote))
    end.

(** [publish], lines 347-360.  The payload handed over is
    [JSON.stringify(envelope)], kept here as the envelope. *)
Definition publish (sent : SendOutcome) (conversationId : string)
    (envelope : WireMessage) : M unit :=
  _ ← requireNode;
  encoder ← getEncoder conversationId;
  _ ← perform [LightPushSend encoder envelope];
  match sent with
  | send_times_out => throw "Timeout"
  | send_rejects error => throw error
  | send_resolves successes =>
      if decide (successes = 0) then throw "LightPush send failed"
      else mret ()
  end.

(** [applyTombstone], lines 474-482. *)
Definition applyTombstone (conversationId : string) (tombstone : Tombstone) : M unit :=
  self ← this;
  _ ← match messages self !! targetMessageId tombstone with
      | Some message =>
          update (set_messages
                    (insert (targetMessageId tombstone) (set_revoked true message)))
      | None =>
          update (set_pendingTombstones
                    (insert (targetMessageId tombstone) tombstone))
      end;
  emit conversationId (tombstone_event tombstone).

(** [sendMessage], lines 249-282; [random] is the nonce drawn by
    [encryptPayload], [now] is [Date.now()]. *)
Definition sendMessage (random : bytes) (now : Z) (sent : SendOutcome)
    (conversationId plaintext : string) : M string :=
  conversation ← getConversation conversationId;
  key ← deriveConversationKey conversation;
  self ← this;
  let '(nonce, ciphertext) := encryptPayload random plaintext key in
  let timestamp := now in
  let messageId :=
    canonicalId [conversationId; identity_id (identity self); nonce; ciphertext;
                 pretty timestamp] in
  let envelopeBase :=
    JObj [("v", JNum 1); ("type", JStr "chat");
          ("conversationId", JStr conversationId);
          ("messageId", JStr messageId);
          ("senderId", JStr (identity_id (identity self)));
          ("senderEd25519", JStr (toBase64 (ed25519PublicKey (identity self))));
          ("senderX25519", JStr (toBase64 (x25519PublicKey (identity self))));
          ("timestamp", JNum timestamp);
          ("nonce", JStr nonce); ("ciphertext", JStr ciphertext)] in
  let signature := signPayload envelopeBase (ed25519PrivateKey (identity self)) in
  let envelope :=
    {| wire_v := 1; wire_type := chat; wire_conversationId := conversationId;
       wire_messageId := messageId;
       wire_senderId := identity_id (identity self);
       wire_senderEd25519 := toBase64 (ed25519PublicKey (identity self));
       wire_senderX25519 := toBase64 (x25519PublicKey (identity self));
       wire_timestamp := timestamp;
       wire_nonce := Some nonce; wire_ciphertext := Some ciphertext;
       wire_targetMessageId := None; wire_signature := signature |} in
  let message :=
    {| message_id := messageId; message_conversationId := conversationId;
       senderId := identity_id (identity self); text := plaintext;
       timestamp := timestamp; revoked := false; deleted := false |} in
  _ ← update (set_messages (insert messageId message));
  _ ← emit conversationId (message_event message);
  _ ← publish sent conversationId envelope;
  mret messageId.

(** [revokeMessage], lines 284-314. *)
Definition revokeMessage (now : Z) (sent : SendOutcome)
    (conversationId targetMessageId : string) : M unit :=
  conversation ← getConversation conversationId;
  self ← this;
  let message := messages self !! targetMessageId in
  let issuerId := identity_id (identity self) in
  match message with
  | None => throw "Message not found"
  | Some message =>
      if negb (canRevoke conversation issuerId (senderId message)) then
        throw "Not authorized to revoke"
      else
        let timestamp := now in
        let messageId :=
          canonicalId [conversationId; targetMessageId; issuerId; pretty timestamp] in
        let envelopeBase :=
          JObj [("v", JNum 1); ("type", JStr "tombstone");
                ("conversationId", JStr conversationId);
                ("messageId", JStr messageId);
                ("senderId", JStr issuerId);
                ("senderEd25519", JStr (toBase64 (ed25519PublicKey (identity self))));
                ("senderX25519", JStr (toBase64 (x25519PublicKey (identity self))));
                ("timestamp", JNum timestamp);
                ("targetMessageId", JStr targetMessageId)] in
        let signature := signPayload envelopeBase (ed25519PrivateKey (identity self)) in
        let envelope :=
          {| wire_v := 1; wire_type := tombstone;
             wire_conversationId := conversationId;
             wire_messageId := messageId; wire_senderId := issuerId;
             wire_senderEd25519 := toBase64 (ed25519PublicKey (identity self));
             wire_senderX25519 := toBase64 (x25519PublicKey (identity self));
             wire_timestamp := timestamp;
             wire_nonce := None; wire_ciphertext := None;
             wire_targetMessageId := Some targetMessageId;
             wire_signature := signature |} in
        _ ← applyTombstone conversationId
              {| types.targetMessageId := targetMessageId; issuerId := issuerId;
                 tombstone_timestamp := timestamp |};
        publish sent conversationId envelope
  end.

(** The chat branch of [handleDecodedMessage] inside its [try] block,
    lines 451-468. *)
Definition storeDecrypted (conversationId : string) (parsed : WireMessage)
    (ciphertext nonce : string) (key : bytes) : M unit :=
  match decryptPayload ciphertext nonce key with
  | None => throw "invalid tag"
  | Some text =>
      let chatMessage :=
        {| message_id := wire_messageId parsed;
           message_conversationId := conversationId;
           senderId := wire_senderId parsed; text := text;
           timestamp := wire_timestamp parsed;
           revoked := false; deleted := false |} in
      self ← this;
      if decide (is_Some (messages self !! message_id chatMessage)) then mret ()
      else
        let tombstone := pendingTombstones self !! message_id chatMessage in
        let chatMessage :=
          if decide (is_Some tombstone) then set_revoked true chatMessage
          else chatMessage in
        _ ← update (set_messages (insert (message_id chatMessage) chatMessage));
        emit conversationId (message_event chatMessage)
  end.

(** [handleDecodedMessage], lines 415-472.  A [Thrown] outcome is the
    rejection of the promise the subscription callback discards. *)
Definition handleDecodedMessage (conversationId : string)
    (message : IDecodedMessage) : M unit :=
  match payload message with
  | None => mret ()
  | Some not_json => throw "SyntaxError"
  | Some (json parsed) =>
      if decide (wire_conversationId parsed ≠ conversationId) then mret ()
      else
        let senderPublicKey := fromBase64 (wire_senderEd25519 parsed) in
        let signaturePayload := signaturePayload parsed in
        let signatureValid :=
          verifyPayload signaturePayload (wire_signature parsed) senderPublicKey in
        if negb signatureValid then mret ()
        else if decide (wire_type parsed = tombstone) then
          match wire_targetMessageId parsed with
          | None | Some "" => mret ()
          | Some target =>
              let tombstone :=
                {| targetMessageId := target; issuerId := wire_senderId parsed;
                   tombstone_timestamp := wire_timestamp parsed |} in
              conversation ← getConversation conversationId;
              self ← this;
              if canRevoke conversation (issuerId tombstone)
                   (default "" (senderId <$> messages self !! targetMessageId tombstone))
              then applyTombstone conversationId tombstone
              else mret ()
          end
        else
          match wire_ciphertext parsed, wire_nonce parsed with
          | None, _ | Some "", _ | _, None | _, Some "" => mret ()
          | Some ciphertext, Some nonce =>
              conversation ← getConversation conversationId;
              key ← deriveConversationKey conversation;
              self ← this;
              try_catch
                (storeDecrypted conversationId parsed ciphertext nonce key)
                (λ error,
                   perform [ConsoleError
                     ("[" +:+ String.substring 0 8 (identity_id (identity self)) +:+
                      "] Decryption failed for message " +:+ wire_messageId parsed +:+
                      " from " +:+ String.substring 0 8 (wire_senderId parsed) +:+
                      " in " +:+ conversationId +:+ ": " +:+ error)])
          end
  end.
End Methods.

(** * The vocabulary of the statements *)

(** ** Runs *)

(** The run of a method that returns [a] and does nothing else. *)
Definition unchanged {A} (a : A) (self : ChatClient) : Run A :=
  {| outcome := Returned a; final := self; effects := [] |}.

(** ** A symbolic instance of the primitives

    Every law above holds in it, and it computes: it is the instance at
    which the theorems are run on concrete clients.  Keys are their own
    public halves, a signature is the key followed by the message, a shared
    secret is built from the two keys symmetrically, base64 is the identity
    on byte strings, [hkdf] cuts its inputs to the length asked. *)

Module Symbolic.

Definition byte_sum (l : bytes) : N :=
  foldr (λ b acc, Byte.to_N b + acc)%N 0%N l.

Definition hkdf_cut (ikm salt info : bytes) (n : nat) : bytes :=
  take n (ikm ++ salt ++ info ++ replicate n x2e)%list.

Definition shared_sum (sk pk : bytes) : bytes :=
  String.list_byte_of_string (pretty (byte_sum sk + byte_sum pk)%N).

Definition open_box (key nonce ciphertext : bytes) : option bytes :=
  let prefix := (key ++ nonce)%list in
  if decide (take (length prefix) ciphertext = prefix)
  then Some (drop (length prefix) ciphertext) else None.

#[export] Instance primitives : Crypto := {|
  toBase64 := String.string_of_list_byte;
  fromBase64 := String.list_byte_of_string;
  sha256 := λ data, data;
  hkdf := hkdf_cut;
  x25519_getPublicKey := λ sk, sk;
  x25519_getSharedSecret := shared_sum;
  ed25519_getPublicKey := λ sk, sk;
  ed25519_sign := λ msg sk, (sk ++ msg)%list;
  ed25519_verify := λ sig msg pk, bool_decide (sig = (pk ++ msg)%list);
  xchacha20poly1305_encrypt := λ key nonce plain, (key ++ nonce ++ plain)%list;
  xchacha20poly1305_decrypt := open_box;
|}.

Definition utf8 (s : string) : bytes := String.list_byte_of_string s.

(** Three participants and a group conversation administered by alice. *)
Definition alice : Identity := createIdentity (utf8 "alice") (utf8 "alice-x").
Definition bob : Identity := createIdentity (utf8 "bob") (utf8 "bob-x").
Definition carol : Identity := createIdentity (utf8 "carol") (utf8 "carol-x").

Definition participant_of (i : Identity) : Participant :=
  {| participant_id := identity_id i;
     participant_ed25519PublicKey := ed25519PublicKey i;
     participant_x25519PublicKey := x25519PublicKey i |}.

Definition room : ConversationConfig :=
  {| conversation_id := "room"; conversation_type := group;
     participants := map participant_of [alice; bob; carol];
     sharedKeyBase64 := Some "secret"; adminIds := Some ["alice"] |}.

Definition chatting : ConversationConfig :=
  {| conversation_id := "chatting"; conversation_type := direct;
     participants := map participant_of [alice; bob];
     sharedKeyBase64 := None; adminIds := None |}.

(** A started client of [who], joined to both conversations, with one
    listener on each. *)
Definition client_of (who : Identity) : ChatClient :=
  {| identity := who; waku := Some light_node; config := default_config;
     conversations := <["room" := room]> (<["chatting" := chatting]> ∅);
     handlers := <["room" := [7]]> (<["chatting" := [8]]> ∅);
     decoderCache := ∅; encoderCache := ∅; messages := ∅;
     subscribed := ∅; pendingTombstones := ∅ |}.

End Symbolic.

(** ** Deliveries *)

Section Receive.
Context {C : Crypto}.

(** What [handleDecodedMessage] computes before it routes by tag. *)
Definition signatureValid (parsed : WireMessage) : bool :=
  verifyPayload (signaturePayload parsed) (wire_signature parsed)
    (fromBase64 (wire_senderEd25519 parsed)).

Definition deliver (parsed : WireMessage) : IDecodedMessage :=
  {| payload := Some (json parsed) |}.

End Receive.

(** ** Sends *)

Section Send.
Context {C : Crypto}.

(** The encoder [getEncoder] answers with, and the client it leaves. *)
Definition encoder_for (self : ChatClient) (conversationId : string) : IEncoder :=
  default (contentTopicPrefix (config self) +:+ "/" +:+ conversationId +:+ "/json")
          (encoderCache self !! conversationId).

Definition with_encoder (self : ChatClient) (conversationId : string) : ChatClient :=
  match encoderCache self !! conversationId with
  | Some _ => self
  | None =>
      set_encoderCache
        (insert conversationId
           (contentTopicPrefix (config self) +:+ "/" +:+ conversationId +:+ "/json"))
        self
  end.

Definition publish_outcome (sent : SendOutcome) : Outcome unit :=
  match sent with
  | send_times_out => Thrown "Timeout"
  | send_rejects error => Thrown error
  | send_resolves 0 => Thrown "LightPush send failed"
  | send_resolves (S _) => Returned ()
  end.

End Send.

(** ** The store as a labelled transition system

    The store of a client is its messages map with its pending tombstones.
    Every method moves it by at most one of five transitions (spec 4.4:
    unknown, received, revoked, and the local [deleted] flag). *)

Abbreviation Store := (gmap string ChatMessage * gmap string Tombstone)%type.

Definition store_of (self : ChatClient) : Store :=
  (messages self, pendingTombstones self).

Inductive Transition := t_delete | t_revoke | t_buffer | t_receive | t_send.

Inductive store_step : Transition → Store → Store → Prop :=
  | step_delete msgs pend id m :
      msgs !! id = Some m →
      store_step t_delete (msgs, pend) (<[id := set_deleted true m]> msgs, pend)
  | step_revoke msgs pend id m :
      msgs !! id = Some m →
      store_step t_revoke (msgs, pend) (<[id := set_revoked true m]> msgs, pend)
  | step_buffer msgs pend t :
      msgs !! targetMessageId t = None →
      store_step t_buffer (msgs, pend) (msgs, <[targetMessageId t := t]> pend)
  | step_receive msgs pend m :
      msgs !! message_id m = None →
      deleted m = false →
      revoked m = bool_decide (is_Some (pend !! message_id m)) →
      store_step t_receive (msgs, pend) (<[message_id m := m]> msgs, pend)
  | step_send msgs pend m :
      revoked m = false → deleted m = false →
      store_step t_send (msgs, pend) (<[message_id m := m]> msgs, pend).

(** A method that leaves the store alone. *)
Definition keeps_store {A} (m : M A) : Prop :=
  ∀ self, store_of (final (m self)) = store_of self.

(** A method that moves the store by at most one transition among
    [labels]. *)
Definition moved (labels : list Transition) (s s' : Store) : Prop :=
  s' = s ∨ ∃ l, l ∈ labels ∧ store_step l s s'.

Definition moves_at {A} (labels : list Transition) (m : M A)
    (self : ChatClient) : Prop :=
  moved labels (store_of self) (store_of (final (m self))).

(** ** Calls on a client, in sequence *)

Inductive Call :=
  | call_init (peers : bool)
  | call_joinConversation (conversation : ConversationConfig)
  | call_leaveConversation (conversationId : string)
  | call_subscribe (success : bool) (conversationId : string)
      (handler : SubscriptionHandler)
  | call_unsubscribe (conversationId : string) (handler : SubscriptionHandler)
  | call_deleteMessage (messageId : string)
  | call_sendMessage (random : bytes) (now : Z) (sent : SendOutcome)
      (conversationId plaintext : string)
  | call_revokeMessage (now : Z) (sent : SendOutcome)
      (conversationId targetMessageId : string)
  | call_deliver (conversationId : string) (message : IDecodedMessage).

Section Calls.
Context {C : Crypto}.

(** The client one call leaves, however the call ended. *)
Definition run_call (c : Call) (self : ChatClient) : ChatClient :=
  match c with
  | call_init peers => final (init peers self)
  | call_joinConversation conversation =>
      final (joinConversation conversation self)
  | call_leaveConversation conversationId =>
      final (leaveConversation conversationId self)
  | call_subscribe success conversationId handler =>
      final (subscribe success conversationId handler self)
  | call_unsubscribe conversationId handler =>
      final (unsubscribe conversationId handler self)
  | call_deleteMessage messageId => final (deleteMessage messageId self)
  | call_sendMessage random now sent conversationId plaintext =>
      final (sendMessage random now sent conversationId plaintext self)
  | call_revokeMessage now sent conversationId targetMessageId =>
      final (revokeMessage now sent conversationId targetMessageId self)
  | call_deliver conversationId message =>
      final (handleDecodedMessage conversationId message self)
  end.

Definition run_calls (calls : list Call) (self : ChatClient) : ChatClient :=
  foldl (λ s c, run_call c s) self calls.

End Calls.

(** ** What a delivery stores *)

Section Handled.
Context {C : Crypto}.

(** The tombstone an envelope carries for [target]. *)
Definition tombstone_of (parsed : WireMessage) (target : string) : Tombstone :=
  {| targetMessageId := target; issuerId := wire_senderId parsed;
     tombstone_timestamp := wire_timestamp parsed |}.

(** The message a chat envelope is stored as. *)
Definition message_of (conversationId : string) (parsed : WireMessage)
    (text : string) (revoked : bool) : ChatMessage :=
  {| message_id := wire_messageId parsed;
     message_conversationId := conversationId;
     senderId := wire_senderId parsed; text := text;
     timestamp := wire_timestamp parsed;
     revoked := revoked; deleted := false |}.

End Handled.

(** ** Listeners reached *)

(** The handlers an event of a conversation reaches, in order. *)
Definition reached (conversationId : string) (event : ChatEvent)
    (self : ChatClient) : list SubscriptionHandler :=
  omap (λ e, match e with Delivered handler _ => Some handler | _ => None end)
       (effects (emit conversationId event self)).

(** ** Envelopes as the client builds them *)

Section Envelopes.
Context {C : Crypto}.

(** An envelope with the signature of its signable projection. *)
Definition signed (unsigned : WireMessage) (privateKey : bytes) : WireMessage :=
  {| wire_v := wire_v unsigned; wire_type := wire_type unsigned;
     wire_conversationId := wire_conversationId unsigned;
     wire_messageId := wire_messageId unsigned;
     wire_senderId := wire_senderId unsigned;
     wire_senderEd25519 := wire_senderEd25519 unsigned;
     wire_senderX25519 := wire_senderX25519 unsigned;
     wire_timestamp := wire_timestamp unsigned;
     wire_nonce := wire_nonce unsigned; wire_ciphertext := wire_ciphertext unsigned;
     wire_targetMessageId := wire_targetMessageId unsigned;
     wire_signature := signPayload (signaturePayload unsigned) privateKey |}.

(** The envelope [sendMessage] builds (lines 252-268) once it has derived
    [key]. *)
Definition chat_envelope (self : ChatClient) (random : bytes) (now : Z)
    (conversationId plaintext : string) (key : bytes) : WireMessage :=
  let sealed := encryptPayload random plaintext key in
  signed
    {| wire_v := 1; wire_type := chat; wire_conversationId := conversationId;
       wire_messageId :=
         canonicalId [conversationId; identity_id (identity self); sealed.1;
                      sealed.2; pretty now];
       wire_senderId := identity_id (identity self);
       wire_senderEd25519 := toBase64 (ed25519PublicKey (identity self));
       wire_senderX25519 := toBase64 (x25519PublicKey (identity self));
       wire_timestamp := now;
       wire_nonce := Some sealed.1; wire_ciphertext := Some sealed.2;
       wire_targetMessageId := None; wire_signature := "" |}
    (ed25519PrivateKey (identity self)).

(** The envelope [revokeMessage] builds (lines 294-307). *)
Definition tombstone_envelope (self : ChatClient) (now : Z)
    (conversationId targetMessageId : string) : WireMessage :=
  signed
    {| wire_v := 1; wire_type := tombstone; wire_conversationId := conversationId;
       wire_messageId :=
         canonicalId [conversationId; targetMessageId; identity_id (identity self);
                      pretty now];
       wire_senderId := identity_id (identity self);
       wire_senderEd25519 := toBase64 (ed25519PublicKey (identity self));
       wire_senderX25519 := toBase64 (x25519PublicKey (identity self));
       wire_timestamp := now;
       wire_nonce := None; wire_ciphertext := None;
       wire_targetMessageId := Some targetMessageId; wire_signature := "" |}
    (ed25519PrivateKey (identity self)).

(** The message [sendMessage] stores for the envelope it built (lines
    269-277). *)
Definition sent_message (envelope : WireMessage) (plaintext : string) : ChatMessage :=
  {| message_id := wire_messageId envelope;
     message_conversationId := wire_conversationId envelope;
     senderId := wire_senderId envelope; text := plaintext;
     timestamp := wire_timestamp envelope; revoked := false; deleted := false |}.

(** An identity whose public signing key is that of its private key, as
    [createIdentity] makes them. *)
Definition signing_pair (i : Identity) : Prop :=
  ed25519PublicKey i = ed25519_getPublicKey (ed25519PrivateKey i).

(** An envelope that carries another signing key, its other fields kept,
    and the same envelope signed with that key. *)
Definition with_key (parsed : WireMessage) (privateKey : bytes) : WireMessage :=
  {| wire_v := wire_v parsed; wire_type := wire_type parsed;
     wire_conversationId := wire_conversationId parsed;
     wire_messageId := wire_messageId parsed;
     wire_senderId := wire_senderId parsed;
     wire_senderEd25519 := toBase64 (ed25519_getPublicKey privateKey);
     wire_senderX25519 := wire_senderX25519 parsed;
     wire_timestamp := wire_timestamp parsed;
     wire_nonce := wire_nonce parsed; wire_ciphertext := wire_ciphertext parsed;
     wire_targetMessageId := wire_targetMessageId parsed;
     wire_signature := wire_signature parsed |}.

Definition resigned (parsed : WireMessage) (privateKey : bytes) : WireMessage :=
  signed (with_key parsed privateKey) privateKey.

End Envelopes.

(** ** The life of a stored message *)

(** A call that sends a chat message. *)
Definition is_send (c : Call) : bool :=
  match c with call_sendMessage _ _ _ _ _ => true | _ => false end.

(** [m'] is [m] later in its life: the same message, with the flags that
    were set still set. *)
Definition aged (m m' : ChatMessage) : Prop :=
  message_id m' = message_id m ∧
  message_conversationId m' = message_conversationId m ∧
  senderId m' = senderId m ∧ text m' = text m ∧ timestamp m' = timestamp m ∧
  (revoked m = true → revoked m' = true) ∧
  (deleted m = true → deleted m' = true).

(** Every message is stored under its own identifier. *)
Definition keyed (msgs : gmap string ChatMessage) : Prop :=
  ∀ k m, msgs !! k = Some m → message_id m = k.

(** ** Runs of three clients over the symbolic primitives *)

Module Scenario.
Import Symbolic.

(** The envelopes a run handed to the transport. *)
Definition sent_envelopes {A} (r : Run A) : list WireMessage :=
  omap (λ e, match e with
             | LightPushSend _ envelope => Some envelope
             | _ => None
             end) (effects r).

Definition no_envelope : WireMessage :=
  {| wire_v := 0; wire_type := chat; wire_conversationId := "";
     wire_messageId := ""; wire_senderId := ""; wire_senderEd25519 := "";
     wire_senderX25519 := ""; wire_timestamp := 0; wire_nonce := None;
     wire_ciphertext := None; wire_targetMessageId := None;
     wire_signature := "" |}.

Definition first_sent {A} (r : Run A) : WireMessage :=
  default no_envelope (head (sent_envelopes r)).

(** Bob writes to alice in their direct conversation, then revokes what he
    wrote. *)
Definition bob_sends : Run string :=
  sendMessage (utf8 "nonce-1") 1000 (send_resolves 1) "chatting" "hello alice"
    (client_of bob).
Definition bob_message : WireMessage := first_sent bob_sends.

(** Bob writes to the group; alice, its admin, receives the message and
    revokes it. *)
Definition bob_sends_room : Run string :=
  sendMessage (utf8 "nonce-2") 3000 (send_resolves 1) "room" "hello room"
    (client_of bob).
Definition bob_room_message : WireMessage := first_sent bob_sends_room.
Definition alice_revokes : Run unit :=
  revokeMessage 4000 (send_resolves 1) "room" (wire_messageId bob_room_message)
    (final (handleDecodedMessage "room" (deliver bob_room_message) (client_of alice))).
Definition alice_tombstone : WireMessage := first_sent alice_revokes.



(** Alice and carol once bob's group message has reached them. *)
Definition alice_holds : ChatClient :=
  final (handleDecodedMessage "room" (deliver bob_room_message) (client_of alice)).
Definition carol_holds : ChatClient :=
  final (handleDecodedMessage "room" (deliver bob_room_message) (client_of carol)).

(** A client that was not started. *)
Definition offline (who : Identity) : ChatClient := set_waku None (client_of who).

(** Bob's group message with a ciphertext that does not open, signed by
    bob. *)
Definition garbled : WireMessage :=
  signed
    {| wire_v := wire_v bob_room_message; wire_type := wire_type bob_room_message;
       wire_conversationId := wire_conversationId bob_room_message;
       wire_messageId := wire_messageId bob_room_message;
       wire_senderId := wire_senderId bob_room_message;
       wire_senderEd25519 := wire_senderEd25519 bob_room_message;
       wire_senderX25519 := wire_senderX25519 bob_room_message;
       wire_timestamp := wire_timestamp bob_room_message;
       wire_nonce := wire_nonce bob_room_message;
       wire_ciphertext := Some "garbled";
       wire_targetMessageId := wire_targetMessageId bob_room_message;
       wire_signature := "" |}
    (ed25519PrivateKey bob).

(** A tombstone for bob's group message that names bob as its issuer,
    and the same signed with a key that is not bob's. *)
Definition in_bobs_name : WireMessage :=
  {| wire_v := 1; wire_type := tombstone; wire_conversationId := "room";
     wire_messageId := "t-1"; wire_senderId := identity_id bob;
     wire_senderEd25519 := ""; wire_senderX25519 := "";
     wire_timestamp := 8000; wire_nonce := None; wire_ciphertext := None;
     wire_targetMessageId := Some (wire_messageId bob_room_message);
     wire_signature := "" |}.
Definition borrowed_name : WireMessage := resigned in_bobs_name (utf8 "another key").

(** Carol starts a client, joins the group and receives bob's message;
    later she receives alice's tombstone for it, deletes it, receives it
    again and leaves. *)
Definition carol_starts : list Call :=
  [call_joinConversation room; call_init true; call_subscribe true "room" 7;
   call_deliver "room" (deliver bob_room_message)].
Definition carol_goes_on : list Call :=
  [call_deliver "room" (deliver alice_tombstone);
   call_deleteMessage (wire_messageId bob_room_message);
   call_deliver "room" (deliver bob_room_message);
   call_leaveConversation "room"].


End Scenario.

(** ** Bytes, a finite type *)

#[global] Instance byte_finite : Finite byte.
Proof.
  refine (bijective_finite Byte.of_bits).
  - intros b1 b2 Heq. by rewrite <- (Byte.to_bits_of_bits b1), Heq, Byte.to_bits_of_bits.
  - intros b. exists (Byte.to_bits b). apply Byte.of_bits_to_bits.
Defined.


(** ** Values equal as maps *)


(** ** Renderings that can be read back *)

(** A rendering [f] is cancellable when what it wrote can be read back off
    the front of a string: two renderings followed by anything are equal
    only for equal arguments and equal rests. *)
Definition Cancellable {A} (f : A → string) : Prop :=
  ∀ a b r r', f a +:+ r = f b +:+ r' → a = b ∧ r = r'.







(** Renderings put one after the other. *)
Definition after {A} (text : string) (f : A → string) : A → string :=
  λ a, text +:+ f a.

Definition key (name : string) : string := dquote +:+ name +:+ dquote +:+ ":".





(** ** A payload in two insertion orders *)

(** An object and the same object with its fields, and those of the object
    nested in it, inserted in another order. *)
Definition sample_payload : JValue :=
  JObj [("v", JNum 1); ("type", JStr "chat");
        ("nested", JObj [("b", JNull); ("a", JArr [JBool true; JStr "x"])])].

(** * Lemmas and theorems *)

(** ** Running the methods *)

(** Reduction of the run of a method, without unfolding the methods it
    calls. *)
Ltac proj :=
  cbn [outcome final effects identity waku config conversations handlers
       decoderCache encoderCache messages subscribed pendingTombstones
       set_waku set_conversations set_handlers set_decoderCache
       set_encoderCache set_messages set_subscribed set_pendingTombstones
       update perform throw mret M_ret unchanged app].

Lemma run_bind {A B} (m : M A) (k : A → M B) (self : ChatClient) :
  (m ≫= k) self =
  match outcome (m self) with
  | Thrown e =>
      {| outcome := Thrown e; final := final (m self); effects := effects (m self) |}
  | Returned a =>
      {| outcome := outcome (k a (final (m self)));
         final := final (k a (final (m self)));
         effects := effects (m self) ++ effects (k a (final (m self))) |}
  end.
Proof. reflexivity. Qed.

Lemma run_this_bind {B} (k : ChatClient → M B) (self : ChatClient) :
  (this ≫= k) self = k self self.
Proof. rewrite run_bind. simpl. by destruct (k self self). Qed.

Lemma client_eta (self : ChatClient) :
  {| identity := identity self; waku := waku self; config := config self;
     conversations := conversations self; handlers := handlers self;
     decoderCache := decoderCache self; encoderCache := encoderCache self;
     messages := messages self; subscribed := subscribed self;
     pendingTombstones := pendingTombstones self |} = self.
Proof. by destruct self. Qed.

(** ** [deleteMessage] *)

Lemma deleteMessage_absent (self : ChatClient) (messageId : string) :
  messages self !! messageId = None →
  deleteMessage messageId self =
  {| outcome := Returned (); final := self; effects := [] |}.
Proof.
  intros Hnone. unfold deleteMessage. rewrite run_this_bind, Hnone. reflexivity.
Qed.

Lemma deleteMessage_present (self : ChatClient) (messageId : string) (m : ChatMessage) :
  messages self !! messageId = Some m →
  deleteMessage messageId self =
  {| outcome := Returned ();
     final := set_messages (insert messageId (set_deleted true m)) self;
     effects := [] |}.
Proof.
  intros Hsome. unfold deleteMessage. rewrite run_this_bind, Hsome. reflexivity.
Qed.

(** C10: [deleteMessage] never throws and reaches no listener; on an
    identifier the store does not hold it changes nothing, and on a stored
    identifier it sets that message's [deleted] flag, keeping the message's
    other fields, every other stored message and every other part of the
    client. *)
Theorem deleteMessage_frame (self : ChatClient) (messageId : string) :
  let r := deleteMessage messageId self in
  outcome r = Returned () ∧ effects r = [] ∧
  match messages self !! messageId with
  | None => final r = self
  | Some m =>
      (∃ m', messages (final r) !! messageId = Some m' ∧
             deleted m' = true ∧
             message_id m' = message_id m ∧
             message_conversationId m' = message_conversationId m ∧
             senderId m' = senderId m ∧ text m' = text m ∧
             timestamp m' = timestamp m ∧ revoked m' = revoked m) ∧
      (∀ other, other ≠ messageId →
                messages (final r) !! other = messages self !! other) ∧
      pendingTombstones (final r) = pendingTombstones self ∧
      conversations (final r) = conversations self ∧
      handlers (final r) = handlers self ∧
      subscribed (final r) = subscribed self ∧
      identity (final r) = identity self ∧ waku (final r) = waku self
  end.
Proof.
  cbv zeta. destruct (messages self !! messageId) as [m|] eqn:Hm.
  - rewrite (deleteMessage_present _ _ _ Hm). simpl.
    repeat split; try done.
    + exists (set_deleted true m). rewrite lookup_insert_eq. by repeat split.
    + intros other Hne. by rewrite lookup_insert_ne.
  - rewrite (deleteMessage_absent _ _ Hm). by repeat split.
Qed.

(** ** [applyTombstone] *)

Lemma run_emit (conversationId : string) (event : ChatEvent) (self : ChatClient) :
  emit conversationId event self =
  {| outcome := Returned (); final := self;
     effects := map (λ handler, Delivered handler event)
                    (default [] (handlers self !! conversationId)) |}.
Proof.
  unfold emit. rewrite run_this_bind.
  by destruct (handlers self !! conversationId).
Qed.

Lemma applyTombstone_stored (conversationId : string) (t : Tombstone)
    (self : ChatClient) (m : ChatMessage) :
  messages self !! targetMessageId t = Some m →
  applyTombstone conversationId t self =
  {| outcome := Returned ();
     final := set_messages (insert (targetMessageId t) (set_revoked true m)) self;
     effects := map (λ handler, Delivered handler (tombstone_event t))
                    (default [] (handlers self !! conversationId)) |}.
Proof.
  intros Hm. unfold applyTombstone. rewrite run_this_bind, Hm, run_bind. proj.
  by rewrite run_emit.
Qed.

Lemma applyTombstone_unknown (conversationId : string) (t : Tombstone)
    (self : ChatClient) :
  messages self !! targetMessageId t = None →
  applyTombstone conversationId t self =
  {| outcome := Returned ();
     final := set_pendingTombstones (insert (targetMessageId t) t) self;
     effects := map (λ handler, Delivered handler (tombstone_event t))
                    (default [] (handlers self !! conversationId)) |}.
Proof.
  intros Hm. unfold applyTombstone. rewrite run_this_bind, Hm, run_bind. proj.
  by rewrite run_emit.
Qed.

(** C8: applying one tombstone twice in succession leaves the client, and
    so its messages map and its pending set, as applying it once does: a
    stored target stays revoked, an unknown target keeps the same pending
    entry. *)
Theorem applyTombstone_idempotent (self : ChatClient) (conversationId : string)
    (t : Tombstone) :
  let once := final (applyTombstone conversationId t self) in
  let twice := final (applyTombstone conversationId t once) in
  twice = once ∧
  messages twice = messages once ∧
  pendingTombstones twice = pendingTombstones once ∧
  match messages self !! targetMessageId t with
  | Some m =>
      messages twice !! targetMessageId t = Some (set_revoked true m) ∧
      pendingTombstones twice = pendingTombstones self
  | None =>
      pendingTombstones twice !! targetMessageId t = Some t ∧
      messages twice = messages self
  end.
Proof.
  cbv zeta. destruct (messages self !! targetMessageId t) as [m|] eqn:Hm.
  - rewrite (applyTombstone_stored _ _ _ _ Hm). proj.
    rewrite (applyTombstone_stored _ _ _ (set_revoked true m)); proj;
      [|by rewrite lookup_insert_eq].
    change (set_revoked true (set_revoked true m)) with (set_revoked true m).
    unfold set_messages; proj. rewrite insert_insert_eq, lookup_insert_eq.
    by repeat split.
  - rewrite (applyTombstone_unknown _ _ _ Hm). proj.
    rewrite applyTombstone_unknown; proj; [|done].
    unfold set_pendingTombstones; proj. rewrite insert_insert_eq, lookup_insert_eq.
    by repeat split.
Qed.

(** The laws hold in the symbolic instance. *)

Lemma symbolic_base64_ok : base64_roundtrip Symbolic.primitives.
Proof. intros data. apply String.list_byte_of_string_of_list_byte. Qed.

Lemma symbolic_ed25519_ok : ed25519_correct Symbolic.primitives.
Proof. intros msg sk. simpl. by apply bool_decide_eq_true. Qed.


Lemma symbolic_x25519_ok : x25519_agreement Symbolic.primitives.
Proof. intros skA skB. simpl. unfold Symbolic.shared_sum. by rewrite N.add_comm. Qed.



Section Receive.
Context {C : Crypto}.

Lemma handleDecodedMessage_foreign self conversationId parsed :
  wire_conversationId parsed ≠ conversationId →
  handleDecodedMessage conversationId (deliver parsed) self = unchanged () self.
Proof.
  intros Hne. unfold handleDecodedMessage, deliver. cbn [payload].
  by rewrite decide_True.
Qed.


End Receive.


(** C9: an envelope delivered to the subscription of one conversation whose
    [conversationId] field names another is ignored before its signature is
    looked at: the handler returns normally, the client is as before, and
    nothing is delivered, logged or sent. *)
Theorem foreign_conversation_ignored {C : Crypto} (self : ChatClient)
    (conversationId : string) (parsed : WireMessage) :
  wire_conversationId parsed ≠ conversationId →
  let r := handleDecodedMessage conversationId (deliver parsed) self in
  outcome r = Returned () ∧
  final r = self ∧
  messages (final r) = messages self ∧
  pendingTombstones (final r) = pendingTombstones self ∧
  effects r = [].
Proof.
  intros Hne. cbv zeta.
  by rewrite (handleDecodedMessage_foreign self conversationId parsed Hne).
Qed.

(** ** The send path *)

Section Send.
Context {C : Crypto}.

Lemma run_getConversation self conversationId :
  getConversation conversationId self =
  match conversations self !! conversationId with
  | Some conversation => unchanged conversation self
  | None => {| outcome := Thrown ("Conversation " +:+ conversationId +:+ " not found");
               final := self; effects := [] |}
  end.
Proof.
  unfold getConversation. rewrite run_this_bind.
  by destruct (conversations self !! conversationId).
Qed.

Lemma run_requireNode self :
  requireNode self =
  match waku self with
  | Some node => unchanged node self
  | None => {| outcome := Thrown "Client not initialized";
               final := self; effects := [] |}
  end.
Proof. unfold requireNode. rewrite run_this_bind. by destruct (waku self). Qed.

(** [deriveConversationKey] reads the client and leaves it alone. *)
Lemma deriveConversationKey_pure conversation self :
  final (deriveConversationKey conversation self) = self ∧
  effects (deriveConversationKey conversation self) = [].
Proof.
  unfold deriveConversationKey. rewrite run_this_bind.
  destruct (decide (conversation_type conversation = group)).
  - by destruct (sharedKeyBase64 conversation) as [[|??]|].
  - by destruct (List.find _ _).
Qed.

Lemma run_deriveConversationKey conversation self key :
  outcome (deriveConversationKey conversation self) = Returned key →
  deriveConversationKey conversation self = unchanged key self.
Proof.
  intros Hkey. destruct (deriveConversationKey_pure conversation self) as [Hf He].
  destruct (deriveConversationKey conversation self); simpl in *. by subst.
Qed.

Lemma run_getEncoder self conversationId node :
  waku self = Some node →
  getEncoder conversationId self =
  unchanged (encoder_for self conversationId) (with_encoder self conversationId).
Proof.
  intros Hnode. unfold getEncoder, encoder_for, with_encoder.
  rewrite run_this_bind.
  destruct (encoderCache self !! conversationId); [done|].
  rewrite run_bind, run_requireNode, Hnode. proj.
  unfold contentTopicFor. rewrite run_bind, run_this_bind. proj.
  by rewrite run_bind.
Qed.

Lemma run_publish sent self conversationId envelope node :
  waku self = Some node →
  publish sent conversationId envelope self =
  {| outcome := publish_outcome sent;
     final := with_encoder self conversationId;
     effects := [LightPushSend (encoder_for self conversationId) envelope] |}.
Proof.
  intros Hnode. unfold publish.
  rewrite run_bind, run_requireNode, Hnode. proj.
  rewrite run_bind, (run_getEncoder _ _ _ Hnode). proj.
  rewrite run_bind. proj.
  by destruct sent as [[|n]| |].
Qed.

Lemma with_encoder_messages self conversationId :
  messages (with_encoder self conversationId) = messages self ∧
  pendingTombstones (with_encoder self conversationId) = pendingTombstones self ∧
  handlers (with_encoder self conversationId) = handlers self ∧
  conversations (with_encoder self conversationId) = conversations self ∧
  identity (with_encoder self conversationId) = identity self ∧
  waku (with_encoder self conversationId) = waku self.
Proof. unfold with_encoder. by destruct (encoderCache self !! conversationId). Qed.

End Send.

(** C5: when the key is derived and the envelope built, and the transport
    then reports no successful delivery or the send timeout fires first,
    [sendMessage] throws (<<LightPush send failed>>, or <<Timeout>>), yet
    the message is in the store, not revoked and not deleted, the message
    event has reached every listener of the conversation before the
    envelope was handed to the transport, and nothing is undone. *)
Theorem sendMessage_not_rolled_back {C : Crypto} (self : ChatClient)
    (random : bytes) (now : Z) (sent : SendOutcome)
    (conversationId plaintext : string)
    (conversation : ConversationConfig) (key : bytes) (node : LightNode) :
  conversations self !! conversationId = Some conversation →
  outcome (deriveConversationKey conversation self) = Returned key →
  waku self = Some node →
  sent = send_resolves 0 ∨ sent = send_times_out →
  let r := sendMessage random now sent conversationId plaintext self in
  ∃ (messageId : string) (message : ChatMessage) (envelope : WireMessage),
    outcome r = Thrown (match sent with
                        | send_times_out => "Timeout"
                        | _ => "LightPush send failed"
                        end) ∧
    messages (final r) = <[messageId := message]> (messages self) ∧
    messages (final r) !! messageId = Some message ∧
    pendingTombstones (final r) = pendingTombstones self ∧
    message_id message = messageId ∧
    message_conversationId message = conversationId ∧
    senderId message = identity_id (identity self) ∧
    text message = plaintext ∧ timestamp message = now ∧
    revoked message = false ∧ deleted message = false ∧
    effects r =
      (map (λ handler, Delivered handler (message_event message))
           (default [] (handlers self !! conversationId))
       ++ [LightPushSend (encoder_for self conversationId) envelope])%list ∧
    wire_type envelope = chat ∧ wire_messageId envelope = messageId ∧
    wire_conversationId envelope = conversationId.
Proof.
  intros Hconv Hkey Hnode Hsent. cbv zeta. unfold sendMessage.
  rewrite run_bind, run_getConversation, Hconv. proj.
  rewrite run_bind, (run_deriveConversationKey _ _ _ Hkey). proj.
  rewrite run_this_bind.
  destruct (encryptPayload random plaintext key) as [nonce ciphertext].
  rewrite run_bind. proj. rewrite run_bind, run_emit. proj.
  rewrite run_bind, (run_publish _ _ _ _ node) by done.
  match goal with
  | |- context [with_encoder ?s ?c] =>
      destruct (with_encoder_messages s c) as (Hm & Hp & _)
  end.
  destruct Hsent as [-> | ->]; cbn [publish_outcome]; proj;
    (eexists _, _, _; rewrite Hm, Hp; proj;
     split; [reflexivity|]; split; [reflexivity|];
     split; [by rewrite lookup_insert_eq|];
     repeat (split; [reflexivity|]); done).
Qed.

(** ** [revokeMessage] *)

Lemma canRevoke_spec (conversation : ConversationConfig)
    (issuerId originalSenderId : string) :
  canRevoke conversation issuerId originalSenderId = true ↔
  issuerId = originalSenderId ∨ issuerId ∈ default [] (adminIds conversation).
Proof.
  unfold canRevoke. destruct (decide (issuerId = originalSenderId)) as [->|Hne].
  - split; [intros _; by left|done].
  - rewrite bool_decide_eq_true. split; [by right|by intros [?|?]].
Qed.

(** C3: for a joined conversation and a stored target, [revokeMessage]
    issued by a client that is neither the target's original sender nor in
    the conversation's admin set throws <<Not authorized to revoke>>, leaves
    the client as it was (the target as it was stored), reaches no listener
    and hands nothing to the transport; and whenever [revokeMessage]
    returns, the issuer is the original sender or an admin. *)
Theorem revokeMessage_authorization {C : Crypto} (self : ChatClient) (now : Z)
    (sent : SendOutcome) (conversationId targetMessageId : string)
    (conversation : ConversationConfig) (message : ChatMessage) :
  conversations self !! conversationId = Some conversation →
  messages self !! targetMessageId = Some message →
  let issuerId := identity_id (identity self) in
  let admins := default [] (adminIds conversation) in
  let r := revokeMessage now sent conversationId targetMessageId self in
  (issuerId ≠ senderId message → issuerId ∉ admins →
   outcome r = Thrown "Not authorized to revoke" ∧
   final r = self ∧
   messages (final r) !! targetMessageId = Some message ∧
   effects r = []) ∧
  (outcome r = Returned () → issuerId = senderId message ∨ issuerId ∈ admins).
Proof.
  intros Hconv Hmsg. cbv zeta. unfold revokeMessage.
  rewrite run_bind, run_getConversation, Hconv. proj.
  rewrite run_this_bind, Hmsg.
  destruct (canRevoke conversation (identity_id (identity self)) (senderId message))
    eqn:Hcan; cbn [negb].
  - apply canRevoke_spec in Hcan. split; [|done].
    intros Hne Hadmin. by destruct Hcan.
  - split; [by intros _ _|]. intros Hret. discriminate Hret.
Qed.

Lemma keeps_mret {A} (a : A) : keeps_store (mret a).
Proof. by intros self. Qed.
Lemma keeps_throw {A} (e : string) : keeps_store (@throw A e).
Proof. by intros self. Qed.
Lemma keeps_this : keeps_store this.
Proof. by intros self. Qed.
Lemma keeps_perform (e : list Effect) : keeps_store (perform e).
Proof. by intros self. Qed.
Lemma keeps_update (f : ChatClient → ChatClient) :
  (∀ self, store_of (f self) = store_of self) → keeps_store (update f).
Proof. intros Hf self. apply Hf. Qed.
Lemma keeps_bind {A B} (m : M A) (k : A → M B) :
  keeps_store m → (∀ a, keeps_store (k a)) → keeps_store (m ≫= k).
Proof.
  intros Hm Hk self. rewrite run_bind.
  destruct (outcome (m self)) as [a|e]; proj; [|apply Hm].
  by rewrite Hk, Hm.
Qed.
Lemma keeps_try_catch {A} (body : M A) (handler : string → M A) :
  keeps_store body → (∀ e, keeps_store (handler e)) →
  keeps_store (try_catch body handler).
Proof.
  intros Hb Hh self. unfold try_catch.
  destruct (outcome (body self)) as [a|e]; proj; [apply Hb|].
  by rewrite Hh, Hb.
Qed.

Create HintDb keeps discriminated.
#[export] Hint Resolve keeps_mret keeps_throw keeps_this keeps_perform
  keeps_try_catch : keeps.

Ltac keeps :=
  repeat first
    [ apply keeps_bind; [|intros ?]
    | apply keeps_update; done
    | solve [auto with keeps]
    | match goal with
      | |- keeps_store (match ?x with _ => _ end) => destruct x
      | |- keeps_store (let '(_, _) := ?x in _) => destruct x
      end ].

Section KeepsStore.
Context {C : Crypto}.

Lemma keeps_requireNode : keeps_store requireNode.
Proof. unfold requireNode. keeps. Qed.
Lemma keeps_contentTopicFor c : keeps_store (contentTopicFor c).
Proof. unfold contentTopicFor. keeps. Qed.
Hint Resolve keeps_requireNode keeps_contentTopicFor : keeps.

Lemma keeps_getEncoder c : keeps_store (getEncoder c).
Proof. unfold getEncoder. keeps. Qed.
Lemma keeps_getDecoder c : keeps_store (getDecoder c).
Proof. unfold getDecoder. keeps. Qed.
Hint Resolve keeps_getEncoder keeps_getDecoder : keeps.

Lemma keeps_publish sent c envelope : keeps_store (publish sent c envelope).
Proof. unfold publish. keeps. Qed.
Lemma keeps_emit c event : keeps_store (emit c event).
Proof. unfold emit. keeps. Qed.
Lemma keeps_getConversation c : keeps_store (getConversation c).
Proof. unfold getConversation. keeps. Qed.
Lemma keeps_deriveConversationKey conversation :
  keeps_store (deriveConversationKey conversation).
Proof. unfold deriveConversationKey. keeps. Qed.
Lemma keeps_init peers : keeps_store (init peers).
Proof. unfold init. keeps. Qed.
Lemma keeps_joinConversation conversation :
  keeps_store (joinConversation conversation).
Proof. unfold joinConversation. keeps. Qed.
Lemma keeps_leaveConversation c : keeps_store (leaveConversation c).
Proof. unfold leaveConversation. keeps. Qed.
Lemma keeps_subscribeInternal ok c : keeps_store (subscribeInternal ok c).
Proof. unfold subscribeInternal. keeps. Qed.
Hint Resolve keeps_subscribeInternal : keeps.
Lemma keeps_ensureSubscribed ok c : keeps_store (ensureSubscribed ok c).
Proof. unfold ensureSubscribed. keeps. Qed.
Hint Resolve keeps_ensureSubscribed : keeps.
Lemma keeps_subscribe ok c h : keeps_store (subscribe ok c h).
Proof. unfold subscribe. keeps. Qed.
Lemma keeps_unsubscribe c h : keeps_store (unsubscribe c h).
Proof. unfold unsubscribe. keeps. Qed.

End KeepsStore.

#[export] Hint Resolve keeps_requireNode keeps_contentTopicFor keeps_getEncoder
  keeps_getDecoder keeps_publish keeps_emit keeps_getConversation
  keeps_deriveConversationKey : keeps.

Lemma moves_keeps {A} labels (m : M A) self :
  keeps_store m → moves_at labels m self.
Proof. intros Hm. left. apply Hm. Qed.

Lemma moves_update labels l (f : ChatClient → ChatClient) self :
  l ∈ labels → store_step l (store_of self) (store_of (f self)) →
  moves_at labels (update f) self.
Proof. intros Hl Hstep. right. by exists l. Qed.

Lemma moves_this_bind {B} labels (k : ChatClient → M B) self :
  moves_at labels (k self) self → moves_at labels (this ≫= k) self.
Proof. unfold moves_at. by rewrite run_this_bind. Qed.

Lemma moves_bind_keep_l {A B} labels (m : M A) (k : A → M B) self :
  keeps_store m → (∀ a, moves_at labels (k a) (final (m self))) →
  moves_at labels (m ≫= k) self.
Proof.
  intros Hm Hk. unfold moves_at. rewrite run_bind.
  destruct (outcome (m self)) as [a|e]; proj.
  - specialize (Hk a). unfold moves_at in Hk. by rewrite Hm in Hk.
  - left. apply Hm.
Qed.

Lemma moves_bind_keep_r {A B} labels (m : M A) (k : A → M B) self :
  moves_at labels m self → (∀ a, keeps_store (k a)) →
  moves_at labels (m ≫= k) self.
Proof.
  intros Hm Hk. unfold moves_at. rewrite run_bind.
  destruct (outcome (m self)) as [a|e]; proj; [|done].
  by rewrite Hk.
Qed.

Lemma moves_try_catch {A} labels (body : M A) (handler : string → M A) self :
  moves_at labels body self → (∀ e, keeps_store (handler e)) →
  moves_at labels (try_catch body handler) self.
Proof.
  intros Hb Hh. unfold moves_at, try_catch.
  destruct (outcome (body self)) as [a|e]; proj; [done|].
  by rewrite Hh.
Qed.

Lemma moves_weaken {A} labels labels' (m : M A) self :
  labels ⊆ labels' → moves_at labels m self → moves_at labels' m self.
Proof.
  intros Hsub [Heq|(l & Hl & Hstep)]; [by left|].
  right. exists l. split; [by apply Hsub|done].
Qed.

Ltac kept := apply moves_keeps; solve [keeps].

Section Moves.
Context {C : Crypto}.

Lemma moves_deleteMessage messageId self :
  moves_at [t_delete] (deleteMessage messageId) self.
Proof.
  unfold deleteMessage. apply moves_this_bind.
  destruct (messages self !! messageId) as [m|] eqn:Hm.
  - apply (moves_update _ t_delete); [set_solver|]. by constructor.
  - apply moves_keeps. keeps.
Qed.

Lemma moves_applyTombstone conversationId t self :
  moves_at [t_revoke; t_buffer] (applyTombstone conversationId t) self.
Proof.
  unfold applyTombstone. apply moves_this_bind.
  apply moves_bind_keep_r; [|intros; keeps].
  destruct (messages self !! targetMessageId t) as [m|] eqn:Hm.
  - apply (moves_update _ t_revoke); [set_solver|]. by constructor.
  - apply (moves_update _ t_buffer); [set_solver|]. by constructor.
Qed.

Lemma moves_storeDecrypted conversationId parsed ciphertext nonce key self :
  moves_at [t_receive]
    (storeDecrypted conversationId parsed ciphertext nonce key) self.
Proof.
  unfold storeDecrypted.
  destruct (decryptPayload ciphertext nonce key) as [text|];
    [|kept].
  apply moves_this_bind. cbn [message_id].
  destruct (decide (is_Some (messages self !! wire_messageId parsed)))
    as [Hin|Hout]; [kept|].
  apply moves_bind_keep_r; [|intros; keeps].
  apply (moves_update _ t_receive); [set_solver|].
  apply eq_None_not_Some in Hout.
  destruct (decide (is_Some (pendingTombstones self !! wire_messageId parsed)))
    as [Hp|Hp]; cbn [message_id set_revoked].
  + match goal with
    | |- context [set_messages (insert _ ?m)] =>
        apply (step_receive (messages self) (pendingTombstones self) m);
          [done|done|]
    end.
    cbn [revoked message_id]. by rewrite bool_decide_eq_true_2.
  + match goal with
    | |- context [set_messages (insert _ ?m)] =>
        apply (step_receive (messages self) (pendingTombstones self) m);
          [done|done|]
    end.
    cbn [revoked message_id]. by rewrite bool_decide_eq_false_2.
Qed.

Lemma moves_handleDecodedMessage conversationId message self :
  moves_at [t_revoke; t_buffer; t_receive]
    (handleDecodedMessage conversationId message) self.
Proof.
  unfold handleDecodedMessage.
  destruct (payload message) as [[|parsed]|]; try (kept).
  destruct (decide (wire_conversationId parsed ≠ conversationId));
    [kept|].
  cbv zeta.
  destruct (negb _); [kept|].
  destruct (decide (wire_type parsed = tombstone)).
  - destruct (wire_targetMessageId parsed) as [[|c target]|];
      try (kept).
    apply moves_bind_keep_l; [keeps|intros conversation].
    apply moves_this_bind.
    destruct (canRevoke _ _ _); [|kept].
    eapply moves_weaken; [|apply moves_applyTombstone].
    intros l. rewrite !elem_of_cons. tauto.
  - destruct (wire_ciphertext parsed) as [[|c1 ciphertext]|],
             (wire_nonce parsed) as [[|c2 nonce]|];
      try (kept).
    apply moves_bind_keep_l; [keeps|intros conversation].
    apply moves_bind_keep_l; [keeps|intros key].
    apply moves_this_bind.
    apply moves_try_catch; [|intros; keeps].
    eapply moves_weaken; [|apply moves_storeDecrypted].
    intros l. rewrite !elem_of_cons. tauto.
Qed.

Lemma moves_sendMessage random now sent conversationId plaintext self :
  moves_at [t_send] (sendMessage random now sent conversationId plaintext) self.
Proof.
  unfold sendMessage.
  apply moves_bind_keep_l; [keeps|intros conversation].
  apply moves_bind_keep_l; [keeps|intros key].
  apply moves_this_bind.
  destruct (encryptPayload random plaintext key) as [nonce ciphertext].
  apply moves_bind_keep_r; [|intros; keeps].
  apply (moves_update _ t_send); [set_solver|].
  unfold store_of. proj.
  match goal with
  | |- store_step _ (?msgs, ?pend) (insert _ ?m _, _) =>
      exact (step_send msgs pend m eq_refl eq_refl)
  end.
Qed.

Lemma moves_revokeMessage now sent conversationId targetMessageId self :
  moves_at [t_revoke; t_buffer]
    (revokeMessage now sent conversationId targetMessageId) self.
Proof.
  unfold revokeMessage.
  apply moves_bind_keep_l; [keeps|intros conversation].
  apply moves_this_bind.
  destruct (messages _ !! targetMessageId) as [message|];
    [|kept].
  destruct (negb _); [kept|].
  apply moves_bind_keep_r; [|intros; keeps].
  apply moves_applyTombstone.
Qed.

End Moves.

(** ** Invariants of the transitions *)

(** A pending tombstone is never dropped. *)
Lemma step_pending_grows l (s s' : Store) (k : string) :
  store_step l s s' → is_Some (s.2 !! k) → is_Some (s'.2 !! k).
Proof.
  intros Hstep Hk. inversion Hstep; subst; simpl in *; try done.
  rewrite lookup_insert_is_Some. destruct (decide (targetMessageId t = k)); auto.
Qed.

(** A stored message is never removed. *)
Lemma step_messages_grow l (s s' : Store) (k : string) :
  store_step l s s' → is_Some (s.1 !! k) → is_Some (s'.1 !! k).
Proof.
  intros Hstep Hk. inversion Hstep; subst; simpl in *; try done;
    rewrite lookup_insert_is_Some;
    match goal with
    | |- ?a = k ∨ _ => destruct (decide (a = k)); auto
    end.
Qed.


Section Calls.
Context {C : Crypto}.

Lemma run_call_moves (c : Call) (self : ChatClient) :
  moved [t_delete; t_revoke; t_buffer; t_receive; t_send]
    (store_of self) (store_of (run_call c self)).
Proof.
  assert (∀ A labels (m : M A),
            moves_at labels m self →
            labels ⊆ [t_delete; t_revoke; t_buffer; t_receive; t_send] →
            moved [t_delete; t_revoke; t_buffer; t_receive; t_send]
              (store_of self) (store_of (final (m self)))) as Hw.
  { intros A labels m Hm Hsub. by apply (moves_weaken labels). }
  destruct c; simpl.
  - left. apply keeps_init.
  - left. apply keeps_joinConversation.
  - left. apply keeps_leaveConversation.
  - left. apply keeps_subscribe.
  - left. apply keeps_unsubscribe.
  - eapply Hw; [apply moves_deleteMessage|].
    intros l. rewrite !elem_of_cons. tauto.
  - eapply Hw; [apply moves_sendMessage|].
    intros l. rewrite !elem_of_cons. tauto.
  - eapply Hw; [apply moves_revokeMessage|].
    intros l. rewrite !elem_of_cons. tauto.
  - eapply Hw; [apply moves_handleDecodedMessage|].
    intros l. rewrite !elem_of_cons. tauto.
Qed.




End Calls.

(** ** The receive path: tombstones and chat messages that are handled *)

Lemma run_bind_returned {A B} (m : M A) (k : A → M B) self a self' :
  m self = unchanged a self' → (m ≫= k) self = k a self'.
Proof. intros Hm. rewrite run_bind, Hm. proj. by destruct (k a self'). Qed.

Section Handled.
Context {C : Crypto}.

Lemma handleDecodedMessage_tombstone self conversationId parsed target conversation :
  wire_conversationId parsed = conversationId →
  signatureValid parsed = true →
  wire_type parsed = tombstone →
  wire_targetMessageId parsed = Some target → target ≠ "" →
  conversations self !! conversationId = Some conversation →
  handleDecodedMessage conversationId (deliver parsed) self =
  if canRevoke conversation (wire_senderId parsed)
       (default "" (senderId <$> messages self !! target))
  then applyTombstone conversationId (tombstone_of parsed target) self
  else unchanged () self.
Proof.
  intros Hcid Hsig Htype Htarget Hne Hconv.
  unfold handleDecodedMessage, deliver. cbn [payload].
  rewrite decide_False by (intros Hx; by apply Hx).
  cbv zeta. fold (signatureValid parsed). rewrite Hsig. cbn [negb].
  rewrite decide_True, Htarget by done.
  destruct target as [|c target]; [done|].
  rewrite (run_bind_returned _ _ self conversation self)
    by (by rewrite run_getConversation, Hconv).
  rewrite run_this_bind. cbn [issuerId targetMessageId].
  by destruct (canRevoke _ _ _).
Qed.

Lemma run_storeDecrypted self conversationId parsed ciphertext nonce key text :
  decryptPayload ciphertext nonce key = Some text →
  messages self !! wire_messageId parsed = None →
  storeDecrypted conversationId parsed ciphertext nonce key self =
  let stored :=
    message_of conversationId parsed text
      (bool_decide (is_Some (pendingTombstones self !! wire_messageId parsed))) in
  {| outcome := Returned ();
     final := set_messages (insert (wire_messageId parsed) stored) self;
     effects := map (λ handler, Delivered handler (message_event stored))
                    (default [] (handlers self !! conversationId)) |}.
Proof.
  intros Hdec Hnone. unfold storeDecrypted. rewrite Hdec, run_this_bind.
  cbn [message_id]. rewrite Hnone.
  rewrite decide_False by (by intros [? ?]).
  rewrite run_bind. proj. rewrite run_emit. proj. cbv zeta.
  by destruct (decide (is_Some (pendingTombstones self !! wire_messageId parsed)));
    [rewrite bool_decide_eq_true_2 by done|rewrite bool_decide_eq_false_2 by done].
Qed.

Lemma handleDecodedMessage_chat self conversationId parsed ciphertext nonce
    conversation key text :
  wire_conversationId parsed = conversationId →
  signatureValid parsed = true →
  wire_type parsed = chat →
  wire_ciphertext parsed = Some ciphertext → ciphertext ≠ "" →
  wire_nonce parsed = Some nonce → nonce ≠ "" →
  conversations self !! conversationId = Some conversation →
  outcome (deriveConversationKey conversation self) = Returned key →
  decryptPayload ciphertext nonce key = Some text →
  messages self !! wire_messageId parsed = None →
  handleDecodedMessage conversationId (deliver parsed) self =
  let stored :=
    message_of conversationId parsed text
      (bool_decide (is_Some (pendingTombstones self !! wire_messageId parsed))) in
  {| outcome := Returned ();
     final := set_messages (insert (wire_messageId parsed) stored) self;
     effects := map (λ handler, Delivered handler (message_event stored))
                    (default [] (handlers self !! conversationId)) |}.
Proof.
  intros Hcid Hsig Htype Hc Hcne Hn Hnne Hconv Hkey Hdec Hnone.
  unfold handleDecodedMessage, deliver. cbn [payload].
  rewrite decide_False by (intros Hx; by apply Hx).
  cbv zeta. fold (signatureValid parsed). rewrite Hsig. cbn [negb].
  rewrite decide_False by (by rewrite Htype).
  rewrite Hc, Hn.
  destruct ciphertext as [|c1 ciphertext]; [done|].
  destruct nonce as [|c2 nonce]; [done|].
  rewrite (run_bind_returned _ _ self conversation self)
    by (by rewrite run_getConversation, Hconv).
  rewrite (run_bind_returned _ _ self key self)
    by (by apply run_deriveConversationKey).
  rewrite run_this_bind. unfold try_catch.
  by rewrite (run_storeDecrypted _ _ _ _ _ _ text).
Qed.

End Handled.

(** ** Tombstones that arrive before their target *)


(** So is the tombstone of an issuer whose identifier is empty, whatever the
    admin set: the empty identifier equals the sender assumed for a target
    that is not stored. *)
Lemma empty_issuer_tombstone_buffered {C : Crypto} (self : ChatClient)
    (conversationId : string) (parsed : WireMessage) (target : string)
    (conversation : ConversationConfig) :
  wire_conversationId parsed = conversationId →
  signatureValid parsed = true →
  wire_type parsed = tombstone →
  wire_targetMessageId parsed = Some target → target ≠ "" →
  conversations self !! conversationId = Some conversation →
  wire_senderId parsed = "" →
  messages self !! target = None →
  pendingTombstones
    (final (handleDecodedMessage conversationId (deliver parsed) self)) !! target
  = Some (tombstone_of parsed target).
Proof.
  intros Hcid Hsig Htype Htarget Hne Hconv Hissuer Hnone.
  rewrite (handleDecodedMessage_tombstone _ _ _ _ _ Hcid Hsig Htype Htarget Hne Hconv).
  rewrite Hnone, Hissuer. cbn [fmap option_fmap option_map default].
  assert (canRevoke conversation "" "" = true) as ->.
  { apply canRevoke_spec. by left. }
  rewrite applyTombstone_unknown by done. proj. by rewrite lookup_insert_eq.
Qed.


(** A tombstone from outside the admin set that arrives before its target
    leaves no trace: with no tombstone pending for it, the target is then
    stored with [revoked = false]. *)
Lemma outsider_tombstone_before_message {C : Crypto} (self : ChatClient)
    (conversationId : string) (parsed envelope : WireMessage) (target : string)
    (conversation : ConversationConfig) (ciphertext nonce : string)
    (key : bytes) (text : string) :
  wire_conversationId parsed = conversationId →
  signatureValid parsed = true →
  wire_type parsed = tombstone →
  wire_targetMessageId parsed = Some target → target ≠ "" →
  conversations self !! conversationId = Some conversation →
  wire_senderId parsed ∉ default [] (adminIds conversation) →
  wire_senderId parsed ≠ "" →
  messages self !! target = None →
  pendingTombstones self !! target = None →
  wire_conversationId envelope = conversationId →
  signatureValid envelope = true →
  wire_type envelope = chat →
  wire_messageId envelope = target →
  wire_ciphertext envelope = Some ciphertext → ciphertext ≠ "" →
  wire_nonce envelope = Some nonce → nonce ≠ "" →
  outcome (deriveConversationKey conversation self) = Returned key →
  decryptPayload ciphertext nonce key = Some text →
  let self1 := final (handleDecodedMessage conversationId (deliver parsed) self) in
  self1 = self ∧
  messages (final (handleDecodedMessage conversationId (deliver envelope) self1))
    !! target
  = Some (message_of conversationId envelope text false).
Proof.
  intros Hcid Hsig Htype Htarget Hne Hconv Hadmin Hissuer Hnone Hpend
    Hcid' Hsig' Htype' Hid Hc Hcne Hn Hnne Hkey Hdec. cbv zeta.
  rewrite (handleDecodedMessage_tombstone _ _ _ _ _
             Hcid Hsig Htype Htarget Hne Hconv).
  rewrite Hnone. cbn [fmap option_fmap option_map default].
  assert (canRevoke conversation (wire_senderId parsed) "" = false) as ->.
  { apply not_true_is_false. rewrite canRevoke_spec. by intros [?|?]. }
  proj. split; [done|].
  rewrite (handleDecodedMessage_chat _ _ _ _ _ _ _ _
             Hcid' Hsig' Htype' Hc Hcne Hn Hnne Hconv Hkey Hdec)
    by (by rewrite Hid).
  cbv zeta. proj. rewrite Hid, lookup_insert_eq, Hpend.
  by rewrite bool_decide_eq_false_2 by (by intros [? ?]).
Qed.


(** ** Key derivation *)







(** ** The canonical serialization *)










(** ** The canonical form of an envelope determines its signed fields *)


Lemma string_app_nil_r (a : string) : a +:+ "" = a.
Proof.
  induction a as [|x a IH]; [done|].
  change (String x (a +:+ "") = String x a). by rewrite IH.
Qed.

Lemma cancel_literal (text : string) : Cancellable (λ _ : unit, text).
Proof. intros [] [] r r' Heq. split; [done|]. by apply (inj (String.app text)) in Heq. Qed.





















(** ** Signing and verifying *)




(** * Further properties of the code *)

(** ** Payload encryption *)



(** ** Identifiers *)




(** ** Identities *)

(** X3: the identifier of an identity made by [createIdentity] is the
    base64 form of its public signing key, so what the identity signs
    verifies against the key decoded from its identifier; and two such
    identities derive the same direct key for a conversation, each from its
    own private key and the other's public key. *)
Theorem createIdentity_keys {C : Crypto} (signingKey agreementKey : bytes) :
  base64_roundtrip C → ed25519_correct C →
  let i := createIdentity signingKey agreementKey in
  fromBase64 (identity_id i) = ed25519PublicKey i ∧
  (∀ payload,
     verifyPayload payload (signPayload payload (ed25519PrivateKey i))
       (fromBase64 (identity_id i)) = true) ∧
  (x25519_agreement C →
   ∀ signingKey' agreementKey' conversationId,
     let j := createIdentity signingKey' agreementKey' in
     deriveDirectKey conversationId (x25519PrivateKey i) (x25519PublicKey j)
     = deriveDirectKey conversationId (x25519PrivateKey j) (x25519PublicKey i)).
Proof.
  intros Hb64 Hed. cbv zeta. unfold createIdentity. cbn.
  split; [apply Hb64|]. split.
  - intros payload. unfold verifyPayload, signPayload. cbv zeta.
    by rewrite !Hb64, Hed.
  - intros Hagree signingKey' agreementKey' conversationId.
    unfold deriveDirectKey. cbv zeta. by rewrite Hagree.
Qed.

(** ** The key of a conversation *)

Lemma find_remote (own : string) (l : list Participant) :
  match List.find (λ p, bool_decide (participant_id p ≠ own)) l with
  | Some remote => remote ∈ l ∧ participant_id remote ≠ own
  | None => Forall (λ p, participant_id p = own) l
  end.
Proof.
  induction l as [|p l IH]; simpl; [done|].
  case_bool_decide as Hp.
  - split; [apply list_elem_of_here|done].
  - destruct (List.find _ l) as [remote|].
    + destruct IH as [Hin Hne]. split; [by apply list_elem_of_further|done].
    + constructor; [|done]. by destruct (decide (participant_id p = own)).
Qed.


(** X5: the two members of a direct conversation derive the same
    conversation key, each from its own private key and the public key the
    conversation lists for the other: for two clients with different
    identifiers whose agreement keys are pairs, and a direct conversation
    that lists both and nobody else. *)
Theorem deriveConversationKey_agreement {C : Crypto} (a b : ChatClient)
    (conversation : ConversationConfig) :
  x25519_agreement C →
  conversation_type conversation = direct →
  x25519PublicKey (identity a) = x25519_getPublicKey (x25519PrivateKey (identity a)) →
  x25519PublicKey (identity b) = x25519_getPublicKey (x25519PrivateKey (identity b)) →
  identity_id (identity a) ≠ identity_id (identity b) →
  Forall (λ p, (participant_id p = identity_id (identity a) ∧
                participant_x25519PublicKey p = x25519PublicKey (identity a)) ∨
               (participant_id p = identity_id (identity b) ∧
                participant_x25519PublicKey p = x25519PublicKey (identity b)))
         (participants conversation) →
  Exists (λ p, participant_id p = identity_id (identity a)) (participants conversation) →
  Exists (λ p, participant_id p = identity_id (identity b)) (participants conversation) →
  ∃ key,
    outcome (deriveConversationKey conversation a) = Returned key ∧
    outcome (deriveConversationKey conversation b) = Returned key.
Proof.
  intros Hagree Htype Ha Hb Hne Hall Hina Hinb.
  rewrite Forall_forall in Hall.
  unfold deriveConversationKey. rewrite !run_this_bind.
  rewrite !decide_False by (by rewrite Htype).
  pose proof (find_remote (identity_id (identity a)) (participants conversation)) as Hfa.
  pose proof (find_remote (identity_id (identity b)) (participants conversation)) as Hfb.
  destruct (List.find _ _) as [pb|] in Hfa |- *; last first.
  { apply Exists_exists in Hinb as (p & Hin & Hp).
    rewrite Forall_forall in Hfa. apply Hfa in Hin. congruence. }
  destruct (List.find _ _) as [pa|] in Hfb |- *; last first.
  { apply Exists_exists in Hina as (p & Hin & Hp).
    rewrite Forall_forall in Hfb. apply Hfb in Hin. congruence. }
  destruct Hfa as [Hinpb Hpb], Hfb as [Hinpa Hpa].
  destruct (Hall _ Hinpb) as [[? _]|[_ Hkb]]; [done|].
  destruct (Hall _ Hinpa) as [[_ Hka]|[? _]]; [|done].
  eexists. split; [reflexivity|]. proj.
  unfold deriveDirectKey. cbv zeta. rewrite Hka, Hkb, Ha, Hb. by rewrite Hagree.
Qed.


(** ** Content topics and encoders *)

Lemma run_contentTopicFor {C : Crypto} (conversationId : string) (self : ChatClient) :
  contentTopicFor conversationId self =
  unchanged (contentTopicPrefix (config self) +:+ "/" +:+ conversationId +:+ "/json") self.
Proof. unfold contentTopicFor. by rewrite run_this_bind. Qed.

Lemma string_length_app (a b : string) :
  String.length (a +:+ b) = String.length a + String.length b.
Proof.
  induction a as [|x a IH]; [done|].
  change (S (String.length (a +:+ b)) = S (String.length a + String.length b)).
  by rewrite IH.
Qed.

Lemma string_app_inj_r (a b suffix : string) :
  a +:+ suffix = b +:+ suffix → a = b.
Proof.
  intros Heq.
  apply (f_equal String.length) in Heq as Hlen. rewrite !string_length_app in Hlen.
  revert b Heq Hlen. induction a as [|x a IH]; intros [|y b] Heq Hlen;
    simpl in Hlen; try lia; [done|].
  injection Heq as -> Heq. f_equal. apply IH; [done|lia].
Qed.

Lemma run_getEncoder_cases {C : Crypto} (self : ChatClient) (conversationId : string) :
  getEncoder conversationId self =
  match encoderCache self !! conversationId, waku self with
  | Some cached, _ => unchanged cached self
  | None, Some _ =>
      let encoder :=
        contentTopicPrefix (config self) +:+ "/" +:+ conversationId +:+ "/json" in
      unchanged encoder (set_encoderCache (insert conversationId encoder) self)
  | None, None =>
      {| outcome := Thrown "Client not initialized"; final := self; effects := [] |}
  end.
Proof.
  unfold getEncoder. rewrite run_this_bind.
  destruct (encoderCache self !! conversationId) as [cached|]; [done|].
  rewrite run_bind, run_requireNode.
  destruct (waku self) as [node|]; proj; [|done].
  rewrite run_bind, run_contentTopicFor. proj. by rewrite run_bind.
Qed.

(** X7: once [getEncoder] has answered an encoder for a conversation, it
    answers the same encoder again and changes nothing more; and the content
    topics [contentTopicFor] gives two different conversations differ. *)
Theorem getEncoder_cached {C : Crypto} (self : ChatClient) (conversationId : string)
    (encoder : IEncoder) :
  let r := getEncoder conversationId self in
  outcome r = Returned encoder →
  effects r = [] ∧
  getEncoder conversationId (final r) = unchanged encoder (final r) ∧
  (∀ other, outcome (contentTopicFor other self)
              = outcome (contentTopicFor conversationId self) →
            other = conversationId).
Proof.
  cbv zeta. rewrite run_getEncoder_cases.
  assert (∀ other, outcome (contentTopicFor other self)
                     = outcome (contentTopicFor conversationId self) →
                   other = conversationId) as Htopics.
  { intros other. rewrite !run_contentTopicFor. proj. intros [= Heq].
    apply (inj (String.app _)), (inj (String.app "/")) in Heq.
    by apply string_app_inj_r in Heq. }
  destruct (encoderCache self !! conversationId) as [cached|] eqn:Hcache.
  - proj. intros [= <-]. split; [done|].
    rewrite !run_getEncoder_cases. proj. by rewrite Hcache.
  - destruct (waku self) as [node|] eqn:Hnode; cbv zeta; proj; [|done].
    intros [= <-]. split; [done|].
    rewrite !run_getEncoder_cases. proj. by rewrite lookup_insert_eq.
Qed.

(** ** Joining and leaving a conversation *)

(** X8: [joinConversation] registers a configuration under its identifier,
    in place of an earlier one, and touches no other conversation.
    [leaveConversation] makes no call to the transport; it forgets the
    configuration, the listeners and the subscription mark of the
    conversation, so that [getConversation] throws and events of the
    conversation reach nobody, and it keeps every other conversation, the
    stored messages, the pending tombstones and the cached encoders and
    decoders. *)
Theorem joinConversation_leaveConversation {C : Crypto} (self : ChatClient)
    (config : ConversationConfig) (conversationId : string) :
  let joined := final (joinConversation config self) in
  let left := final (leaveConversation conversationId self) in
  (getConversation (conversation_id config) joined = unchanged config joined ∧
   (∀ other, other ≠ conversation_id config →
             outcome (getConversation other joined) = outcome (getConversation other self))) ∧
  (outcome (leaveConversation conversationId self) = Returned () ∧
   effects (leaveConversation conversationId self) = [] ∧
   outcome (getConversation conversationId left)
     = Thrown ("Conversation " +:+ conversationId +:+ " not found") ∧
   (∀ event, effects (emit conversationId event left) = []) ∧
   (conversationId ∉ subscribed left) ∧
   (∀ other, other ≠ conversationId →
      conversations left !! other = conversations self !! other ∧
      handlers left !! other = handlers self !! other ∧
      (other ∈ subscribed left ↔ other ∈ subscribed self)) ∧
   messages left = messages self ∧
   pendingTombstones left = pendingTombstones self ∧
   encoderCache left = encoderCache self ∧
   decoderCache left = decoderCache self ∧
   waku left = waku self ∧ identity left = identity self).
Proof.
  cbv zeta. split.
  - unfold joinConversation. proj. split.
    + rewrite run_getConversation. proj. by rewrite lookup_insert_eq.
    + intros other Hne. rewrite !run_getConversation. proj.
      rewrite lookup_insert_ne by done.
      by destruct (conversations self !! other).
  - unfold leaveConversation. rewrite !run_bind. proj.
    split; [done|]. split; [done|]. split; [|split; [|split; [|split]]].
    + rewrite run_getConversation. proj. by rewrite lookup_delete_eq.
    + intros event. rewrite run_emit. proj. by rewrite lookup_delete_eq.
    + intros [_ Hout]%elem_of_difference. apply Hout. by apply elem_of_singleton.
    + intros other Hne. rewrite !lookup_delete_ne by done.
      split; [done|]. split; [done|].
      rewrite elem_of_difference, elem_of_singleton. tauto.
    + done.
Qed.

(** X9: for a conversation the client has not joined, or has left,
    [sendMessage] and [revokeMessage] throw <<Conversation ... not found>>
    before they do anything, and no delivery on the conversation's
    subscription changes the client or reaches a listener, whatever the
    envelope. *)
Theorem unjoined_conversation_inert {C : Crypto} (self : ChatClient)
    (conversationId : string) :
  conversations self !! conversationId = None →
  let error := "Conversation " +:+ conversationId +:+ " not found" in
  (∀ random now sent plaintext,
     sendMessage random now sent conversationId plaintext self
     = {| outcome := Thrown error; final := self; effects := [] |}) ∧
  (∀ now sent targetMessageId,
     revokeMessage now sent conversationId targetMessageId self
     = {| outcome := Thrown error; final := self; effects := [] |}) ∧
  (∀ message,
     final (handleDecodedMessage conversationId message self) = self ∧
     effects (handleDecodedMessage conversationId message self) = []).
Proof.
  intros Hnone. cbv zeta. split; [|split].
  - intros random now sent plaintext. unfold sendMessage.
    by rewrite run_bind, run_getConversation, Hnone.
  - intros now sent targetMessageId. unfold revokeMessage.
    by rewrite run_bind, run_getConversation, Hnone.
  - intros message. unfold handleDecodedMessage.
    destruct (payload message) as [[|parsed]|]; try done.
    destruct (decide (wire_conversationId parsed ≠ conversationId)); [done|].
    cbv zeta. destruct (negb _); [done|].
    destruct (decide (wire_type parsed = tombstone)).
    + destruct (wire_targetMessageId parsed) as [[|c target]|]; try done.
      by rewrite run_bind, run_getConversation, Hnone.
    + destruct (wire_ciphertext parsed) as [[|c1 ciphertext]|],
               (wire_nonce parsed) as [[|c2 nonce]|]; try done.
      by rewrite run_bind, run_getConversation, Hnone.
Qed.

(** ** Listeners *)

Lemma reached_handlers (conversationId : string) (event : ChatEvent)
    (self : ChatClient) :
  reached conversationId event self = default [] (handlers self !! conversationId).
Proof.
  unfold reached. rewrite run_emit. proj.
  induction (default [] (handlers self !! conversationId)) as [|h l IH]; [done|].
  simpl. f_equal. exact IH.
Qed.

Lemma run_ensureSubscribed_dropped {C : Crypto} success conversationId self :
  outcome (try_catch (ensureSubscribed success conversationId)
             (λ _, mret ()) self) = Returned () ∧
  handlers (final (try_catch (ensureSubscribed success conversationId)
                     (λ _, mret ()) self)) = handlers self ∧
  (waku self = None →
   try_catch (ensureSubscribed success conversationId) (λ _, mret ()) self
   = unchanged () self).
Proof.
  unfold try_catch, ensureSubscribed. rewrite run_this_bind.
  destruct (decide (conversationId ∈ subscribed self)); [done|].
  unfold subscribeInternal. rewrite run_bind, run_requireNode.
  destruct (waku self) as [node|]; proj; [|done].
  rewrite run_bind. unfold getDecoder. rewrite run_this_bind.
  destruct (decoderCache self !! conversationId) as [cached|]; proj.
  - rewrite run_bind. proj. by destruct success.
  - rewrite run_bind, run_requireNode. destruct (waku self); proj; [|done].
    rewrite run_bind, run_contentTopicFor. proj. rewrite run_bind. proj.
    rewrite run_bind. proj. by destruct success.
Qed.

Lemma run_subscribe {C : Crypto} (success : bool) (conversationId : string)
    (handler : SubscriptionHandler) (self : ChatClient) :
  let set := default [] (handlers self !! conversationId) in
  let set' := if decide (handler ∈ set) then set else (set ++ [handler])%list in
  outcome (subscribe success conversationId handler self) = Returned () ∧
  handlers (final (subscribe success conversationId handler self))
  = <[conversationId := set']> (handlers self) ∧
  (waku self = None →
   subscribe success conversationId handler self
   = unchanged () (set_handlers (insert conversationId set') self)).
Proof.
  cbv zeta. unfold subscribe. rewrite run_this_bind. cbv zeta. rewrite run_bind. proj.
  match goal with
  | |- context [try_catch _ _ ?s] =>
      destruct (run_ensureSubscribed_dropped success conversationId s)
        as (Ho & Hh & Hoff)
  end.
  rewrite Hh, Ho. split; [done|]. split; [done|].
  intros Hnode. by rewrite Hoff.
Qed.

(** X10: the call of [subscribe] returns normally, with or without a node
    and whatever the transport answers: the subscription it starts is not
    awaited.  After it the handler is reached by the events of the
    conversation, after the handlers that were there and once, also when it
    is subscribed again; the handlers of other conversations are as before;
    and on a client without a node nothing is asked of the transport. *)
Theorem subscribe_registers {C : Crypto} (self : ChatClient) (success : bool)
    (conversationId : string) (handler : SubscriptionHandler) (event : ChatEvent) :
  let r := subscribe success conversationId handler self in
  outcome r = Returned () ∧
  reached conversationId event (final r)
    = (if decide (handler ∈ reached conversationId event self)
       then reached conversationId event self
       else reached conversationId event self ++ [handler])%list ∧
  (∀ other, other ≠ conversationId →
            reached other event (final r) = reached other event self) ∧
  (∀ again,
     reached conversationId event
       (final (subscribe again conversationId handler (final r)))
     = reached conversationId event (final r)) ∧
  (waku self = None → effects r = [] ∧ subscribed (final r) = subscribed self).
Proof.
  cbv zeta.
  destruct (run_subscribe success conversationId handler self) as (Ho & Hh & Hoff).
  split; [done|]. rewrite !reached_handlers, Hh, lookup_insert_eq.
  split; [done|]. split; [|split].
  - intros other Hne. by rewrite !reached_handlers, Hh, lookup_insert_ne.
  - intros again.
    destruct (run_subscribe again conversationId handler
                (final (subscribe success conversationId handler self)))
      as (_ & Hh' & _). rewrite reached_handlers, Hh', Hh, !lookup_insert_eq.
    cbn [default]. set (l := default [] (handlers self !! conversationId)).
    destruct (decide (handler ∈ l)) as [Hin|Hin]; [by rewrite decide_True|].
    rewrite decide_True; [done|].
    apply elem_of_app. right. apply list_elem_of_here.
  - intros Hnode. by rewrite (Hoff Hnode).
Qed.

(** X11: the function [subscribe] returns never throws and asks nothing of
    the transport; after it the handler is no longer reached by the events
    of the conversation, the other handlers of the conversation are reached
    in the order they were, and the rest of the client is as before. *)
Theorem unsubscribe_silences {C : Crypto} (self : ChatClient)
    (conversationId : string) (handler : SubscriptionHandler) (event : ChatEvent) :
  let r := unsubscribe conversationId handler self in
  outcome r = Returned () ∧ effects r = [] ∧
  reached conversationId event (final r)
    = filter (λ h, h ≠ handler) (reached conversationId event self) ∧
  (handler ∉ reached conversationId event (final r)) ∧
  (∀ other, other ≠ conversationId →
            reached other event (final r) = reached other event self) ∧
  messages (final r) = messages self ∧
  pendingTombstones (final r) = pendingTombstones self ∧
  conversations (final r) = conversations self ∧
  subscribed (final r) = subscribed self.
Proof.
  cbv zeta. unfold unsubscribe. rewrite run_this_bind, !reached_handlers.
  destruct (handlers self !! conversationId) as [set|] eqn:Hset; proj.
  - rewrite lookup_insert_eq. cbn [default].
    split; [done|]. split; [done|]. split; [done|]. split.
    + unfold id. rewrite list_elem_of_filter. by intros [? _].
    + split; [|done]. intros other Hne.
      by rewrite !reached_handlers; proj; rewrite lookup_insert_ne.
  - rewrite Hset. split; [done|]. split; [done|]. split; [done|]. split.
    + apply not_elem_of_nil.
    + split; [|done]. intros other Hne. by rewrite !reached_handlers.
Qed.

(** ** Subscriptions *)



(** ** Listing, fetching and deleting *)

Lemma run_listMessages (conversationId : string) (self : ChatClient) :
  listMessages conversationId self
  = unchanged
      (filter (λ message, message_conversationId message = conversationId ∧
                          deleted message = false)
              (map_to_list (messages self)).*2) self.
Proof. unfold listMessages. by rewrite run_this_bind. Qed.

Lemma elem_of_listed (conversationId : string) (msgs : gmap string ChatMessage)
    (x : ChatMessage) :
  x ∈ filter (λ message, message_conversationId message = conversationId ∧
                         deleted message = false) (map_to_list msgs).*2
  ↔ ∃ k, msgs !! k = Some x ∧ message_conversationId x = conversationId ∧
         deleted x = false.
Proof.
  rewrite list_elem_of_filter, list_elem_of_fmap. split.
  - intros [[Hc Hd] ([k y] & -> & Hin%elem_of_map_to_list)]. by exists k.
  - intros (k & Hk & Hc & Hd). split; [done|].
    exists (k, x). split; [done|]. by apply elem_of_map_to_list.
Qed.

(** X13: [listMessages] answers the stored messages of the conversation
    that are not deleted, and nothing else.  After [deleteMessage] the
    message stored under the identifier is no longer listed while every
    other listed message still is, and [getMessage] still answers the
    deleted message, with its [deleted] flag set. *)
Theorem listMessages_deleteMessage (self : ChatClient)
    (conversationId messageId : string) :
  let deleted_one := final (deleteMessage messageId self) in
  ∃ before after,
    listMessages conversationId self = unchanged before self ∧
    listMessages conversationId deleted_one = unchanged after deleted_one ∧
    (∀ x, x ∈ before ↔
          ∃ k, messages self !! k = Some x ∧
               message_conversationId x = conversationId ∧ deleted x = false) ∧
    (∀ x, x ∈ after ↔
          ∃ k, k ≠ messageId ∧ messages self !! k = Some x ∧
               message_conversationId x = conversationId ∧ deleted x = false) ∧
    (∀ m, messages self !! messageId = Some m →
          getMessage messageId deleted_one
          = unchanged (Some (set_deleted true m)) deleted_one).
Proof.
  cbv zeta. eexists _, _. rewrite !run_listMessages.
  split; [reflexivity|]. split; [reflexivity|].
  split; [intros x; apply elem_of_listed|]. split.
  - intros x. rewrite elem_of_listed.
    destruct (messages self !! messageId) as [m|] eqn:Hm.
    + rewrite (deleteMessage_present _ _ _ Hm). proj. split.
      * intros (k & Hk & Hc & Hd). destruct (decide (k = messageId)) as [->|Hne].
        -- rewrite lookup_insert_eq in Hk. injection Hk as <-. discriminate Hd.
        -- rewrite lookup_insert_ne in Hk by done. by exists k.
      * intros (k & Hne & Hk & Hc & Hd). exists k.
        by rewrite lookup_insert_ne.
    + rewrite (deleteMessage_absent _ _ Hm). proj. split.
      * intros (k & Hk & Hc & Hd). exists k. split; [|done]. congruence.
      * intros (k & _ & Hk & Hc & Hd). by exists k.
  - intros m Hm. rewrite (deleteMessage_present _ _ _ Hm). proj.
    unfold getMessage. rewrite run_this_bind. proj. by rewrite lookup_insert_eq.
Qed.

(** ** Invariants of the store over any calls *)

Lemma step_keyed l (s s' : Store) :
  store_step l s s' → keyed s.1 → keyed s'.1.
Proof.
  intros Hstep Hkeyed k x.
  inversion Hstep as [msgs pend id m Hm|msgs pend id m Hm|msgs pend t Hm
                     |msgs pend m Hnone Hd Hr|msgs pend m Hr Hd];
    subst; simpl in *.
  - destruct (decide (id = k)) as [->|Hne].
    + rewrite lookup_insert_eq. intros [= <-]. by apply Hkeyed in Hm.
    + rewrite lookup_insert_ne by done. apply Hkeyed.
  - destruct (decide (id = k)) as [->|Hne].
    + rewrite lookup_insert_eq. intros [= <-]. by apply Hkeyed in Hm.
    + rewrite lookup_insert_ne by done. apply Hkeyed.
  - apply Hkeyed.
  - destruct (decide (message_id m = k)) as [<-|Hne].
    + rewrite lookup_insert_eq. by intros [= <-].
    + rewrite lookup_insert_ne by done. apply Hkeyed.
  - destruct (decide (message_id m = k)) as [<-|Hne].
    + rewrite lookup_insert_eq. by intros [= <-].
    + rewrite lookup_insert_ne by done. apply Hkeyed.
Qed.

Lemma run_calls_keyed {C : Crypto} (calls : list Call) (self : ChatClient) :
  keyed (messages self) → keyed (messages (run_calls calls self)).
Proof.
  revert self. induction calls as [|c calls IH]; intros self Hk; [done|].
  simpl. apply IH.
  destruct (run_call_moves c self) as [Heq|(l & _ & Hstep)].
  - injection Heq as -> _. done.
  - by apply step_keyed in Hstep.
Qed.

(** X14: after any calls on a client made by the constructor, every
    message [listMessages] answers is the one [getMessage] answers for its
    identifier: messages are stored under their own identifiers, whatever
    was sent, received, revoked or deleted. *)
Theorem listed_message_fetched_by_id {C : Crypto} (identity : Identity)
    (config : ChatClientConfig) (calls : list Call) (conversationId : string)
    (listed : list ChatMessage) (m : ChatMessage) :
  let self := run_calls calls (new_ChatClient identity config) in
  outcome (listMessages conversationId self) = Returned listed →
  m ∈ listed →
  getMessage (message_id m) self = unchanged (Some m) self ∧
  message_conversationId m = conversationId ∧ deleted m = false.
Proof.
  cbv zeta. rewrite run_listMessages. proj. intros [= <-].
  intros (k & Hk & Hc & Hd)%elem_of_listed.
  split; [|done]. unfold getMessage. rewrite run_this_bind. proj.
  assert (message_id m = k) as ->; [|by rewrite Hk].
  eapply (run_calls_keyed calls (new_ChatClient identity config)); [|done].
  intros k' m' Hm'. unfold new_ChatClient in Hm'. simpl in Hm'.
  by rewrite lookup_empty in Hm'.
Qed.

(** X15: no call removes a message from the store or a tombstone from the
    pending set: what is stored under an identifier, and what is pending for
    one, is still there after any calls, [deleteMessage] and
    [leaveConversation] included. *)
Theorem store_never_forgets {C : Crypto} (self : ChatClient) (calls : list Call)
    (k : string) :
  (is_Some (messages self !! k) → is_Some (messages (run_calls calls self) !! k)) ∧
  (is_Some (pendingTombstones self !! k) →
   is_Some (pendingTombstones (run_calls calls self) !! k)).
Proof.
  split.
  - revert self. induction calls as [|c calls IH]; intros self Hk; [done|].
    simpl. apply IH.
    destruct (run_call_moves c self) as [Heq|(l & _ & Hstep)].
    + by injection Heq as -> _.
    + by apply (step_messages_grow _ _ _ k) in Hstep.
  - revert self. induction calls as [|c calls IH]; intros self Hk; [done|].
    simpl. apply IH.
    destruct (run_call_moves c self) as [Heq|(l & _ & Hstep)].
    + by injection Heq as _ ->.
    + by apply (step_pending_grows _ _ _ k) in Hstep.
Qed.

Lemma aged_refl (m : ChatMessage) : aged m m.
Proof. by repeat split. Qed.

Lemma aged_trans (m1 m2 m3 : ChatMessage) : aged m1 m2 → aged m2 m3 → aged m1 m3.
Proof.
  intros (? & ? & ? & ? & ? & ? & ?) (? & ? & ? & ? & ? & ? & ?).
  repeat split; try congruence; auto.
Qed.

Lemma step_ages l (s s' : Store) (k : string) (m : ChatMessage) :
  store_step l s s' → l ≠ t_send → s.1 !! k = Some m →
  ∃ m', s'.1 !! k = Some m' ∧ aged m m'.
Proof.
  intros Hstep Hl Hk. inversion Hstep; subst; simpl in *; try done.
  - destruct (decide (id = k)) as [->|Hne].
    + rewrite lookup_insert_eq. eexists. split; [done|].
      assert (m0 = m) as -> by congruence. by repeat split.
    + rewrite lookup_insert_ne by done. exists m. split; [done|apply aged_refl].
  - destruct (decide (id = k)) as [->|Hne].
    + rewrite lookup_insert_eq. eexists. split; [done|].
      assert (m0 = m) as -> by congruence. by repeat split.
    + rewrite lookup_insert_ne by done. exists m. split; [done|apply aged_refl].
  - exists m. split; [done|apply aged_refl].
  - destruct (decide (message_id m0 = k)) as [Heq|Hne]; [congruence|].
    rewrite lookup_insert_ne by done. exists m. split; [done|apply aged_refl].
Qed.

Lemma run_call_moves_between_sends {C : Crypto} (c : Call) (self : ChatClient) :
  is_send c = false →
  moved [t_delete; t_revoke; t_buffer; t_receive]
    (store_of self) (store_of (run_call c self)).
Proof.
  intros Hc.
  assert (∀ A labels (m : M A),
            moves_at labels m self →
            labels ⊆ [t_delete; t_revoke; t_buffer; t_receive] →
            moved [t_delete; t_revoke; t_buffer; t_receive]
              (store_of self) (store_of (final (m self)))) as Hw.
  { intros A labels m Hm Hsub. by apply (moves_weaken labels). }
  destruct c; simpl; try discriminate Hc.
  - left. apply keeps_init.
  - left. apply keeps_joinConversation.
  - left. apply keeps_leaveConversation.
  - left. apply keeps_subscribe.
  - left. apply keeps_unsubscribe.
  - eapply Hw; [apply moves_deleteMessage|].
    intros l. rewrite !elem_of_cons. tauto.
  - eapply Hw; [apply moves_revokeMessage|].
    intros l. rewrite !elem_of_cons. tauto.
  - eapply Hw; [apply moves_handleDecodedMessage|].
    intros l. rewrite !elem_of_cons. tauto.
Qed.

(** X16: deliveries, revocations, deletions and the other calls that send
    no chat message never rewrite a stored message: after any such calls the
    message stored under an identifier has the identifier, conversation,
    sender, text and timestamp it had, and is still revoked if it was
    revoked, still deleted if it was deleted. *)
Theorem stored_message_ages {C : Crypto} (self : ChatClient) (calls : list Call)
    (k : string) (m : ChatMessage) :
  Forall (λ c, is_send c = false) calls →
  messages self !! k = Some m →
  ∃ m', messages (run_calls calls self) !! k = Some m' ∧ aged m m'.
Proof.
  intros Hcalls. revert self m.
  induction Hcalls as [|c calls Hc _ IH]; intros self m Hk.
  - exists m. split; [done|apply aged_refl].
  - simpl.
    destruct (run_call_moves_between_sends c self Hc) as [Heq|(l & Hl & Hstep)].
    + injection Heq as Hm _. apply IH. by rewrite Hm.
    + apply (step_ages _ _ _ k m) in Hstep as (m1 & Hm1 & Hage); [| |done].
      * destruct (IH _ _ Hm1) as (m2 & Hm2 & Hage2).
        exists m2. split; [done|by eapply aged_trans].
      * intros ->. rewrite !elem_of_cons, elem_of_nil in Hl.
        by destruct Hl as [?|[?|[?|[?|?]]]].
Qed.

(** ** The envelopes a client sends *)

Lemma signed_valid {C : Crypto} (unsigned : WireMessage) (privateKey : bytes) :
  base64_roundtrip C → ed25519_correct C →
  fromBase64 (wire_senderEd25519 unsigned) = ed25519_getPublicKey privateKey →
  signatureValid (signed unsigned privateKey) = true.
Proof.
  intros Hb64 Hed Hkey. unfold signatureValid.
  change (signaturePayload (signed unsigned privateKey))
    with (signaturePayload unsigned).
  cbn [wire_signature wire_senderEd25519 signed].
  unfold verifyPayload, signPayload. cbv zeta. by rewrite Hb64, Hkey, Hed.
Qed.

Lemma chat_envelope_valid {C : Crypto} self random now conversationId plaintext key :
  base64_roundtrip C → ed25519_correct C → signing_pair (identity self) →
  signatureValid (chat_envelope self random now conversationId plaintext key) = true.
Proof.
  intros Hb64 Hed Hpair. apply signed_valid; try done.
  cbn [wire_senderEd25519]. by rewrite Hb64.
Qed.

Lemma tombstone_envelope_valid {C : Crypto} self now conversationId targetMessageId :
  base64_roundtrip C → ed25519_correct C → signing_pair (identity self) →
  signatureValid (tombstone_envelope self now conversationId targetMessageId) = true.
Proof.
  intros Hb64 Hed Hpair. apply signed_valid; try done.
  cbn [wire_senderEd25519]. by rewrite Hb64.
Qed.

Lemma run_sendMessage {C : Crypto} self random now sent conversationId plaintext
    conversation key :
  conversations self !! conversationId = Some conversation →
  outcome (deriveConversationKey conversation self) = Returned key →
  sendMessage random now sent conversationId plaintext self =
  let envelope := chat_envelope self random now conversationId plaintext key in
  let message := sent_message envelope plaintext in
  let stored := set_messages (insert (wire_messageId envelope) message) self in
  let delivered :=
    map (λ handler, Delivered handler (message_event message))
        (default [] (handlers self !! conversationId)) in
  match waku self with
  | None =>
      {| outcome := Thrown "Client not initialized"; final := stored;
         effects := delivered |}
  | Some _ =>
      {| outcome := match publish_outcome sent with
                    | Returned _ => Returned (wire_messageId envelope)
                    | Thrown error => Thrown error
                    end;
         final := with_encoder stored conversationId;
         effects := (delivered
                     ++ [LightPushSend (encoder_for stored conversationId) envelope])%list |}
  end.
Proof.
  intros Hconv Hkey. unfold sendMessage.
  rewrite run_bind, run_getConversation, Hconv. proj.
  rewrite run_bind, (run_deriveConversationKey _ _ _ Hkey). proj.
  rewrite run_this_bind. cbv zeta. unfold chat_envelope.
  destruct (encryptPayload random plaintext key) as [nonce ciphertext].
  rewrite run_bind. proj. rewrite run_bind, run_emit. proj.
  rewrite run_bind.
  destruct (waku self) as [node|] eqn:Hnode.
  - rewrite (run_publish _ _ _ _ node) by done. proj.
    by destruct (publish_outcome sent) as [[]|e].
  - unfold publish. rewrite run_bind, run_requireNode. proj. rewrite Hnode. proj.
    by rewrite app_nil_r.
Qed.

Lemma run_revokeMessage {C : Crypto} self now sent conversationId targetMessageId
    conversation message :
  conversations self !! conversationId = Some conversation →
  messages self !! targetMessageId = Some message →
  canRevoke conversation (identity_id (identity self)) (senderId message) = true →
  revokeMessage now sent conversationId targetMessageId self =
  let envelope := tombstone_envelope self now conversationId targetMessageId in
  let t := {| types.targetMessageId := targetMessageId;
              issuerId := identity_id (identity self);
              tombstone_timestamp := now |} in
  let revoked := set_messages (insert targetMessageId (set_revoked true message)) self in
  let delivered :=
    map (λ handler, Delivered handler (tombstone_event t))
        (default [] (handlers self !! conversationId)) in
  match waku self with
  | None =>
      {| outcome := Thrown "Client not initialized"; final := revoked;
         effects := delivered |}
  | Some _ =>
      {| outcome := publish_outcome sent;
         final := with_encoder revoked conversationId;
         effects := (delivered
                     ++ [LightPushSend (encoder_for revoked conversationId) envelope])%list |}
  end.
Proof.
  intros Hconv Hm Hcan. unfold revokeMessage.
  rewrite run_bind, run_getConversation, Hconv. proj.
  rewrite run_this_bind, Hm, Hcan. cbn [negb]. cbv zeta.
  rewrite run_bind, (applyTombstone_stored _ _ _ message) by done. proj.
  destruct (waku self) as [node|] eqn:Hnode.
  - by rewrite (run_publish _ _ _ _ node) by done.
  - unfold publish. rewrite run_bind, run_requireNode. proj. rewrite Hnode. proj.
    by rewrite app_nil_r.
Qed.

Lemma sent_after_delivered {A} (f : A → Effect) (l : list A)
    (encoder encoder' : IEncoder) (envelope envelope' : WireMessage) :
  (∀ a e m, f a ≠ LightPushSend e m) →
  LightPushSend encoder envelope ∈ (map f l ++ [LightPushSend encoder' envelope'])%list →
  encoder = encoder' ∧ envelope = envelope'.
Proof.
  intros Hf [Hin|Hin]%elem_of_app.
  - apply list_elem_of_fmap in Hin as (a & Heq & _). symmetry in Heq. by apply Hf in Heq.
  - apply list_elem_of_singleton in Hin. by injection Hin.
Qed.

Lemma sent_not_delivered {A} (f : A → Effect) (l : list A) (encoder : IEncoder)
    (envelope : WireMessage) :
  (∀ a e m, f a ≠ LightPushSend e m) →
  LightPushSend encoder envelope ∉ map f l.
Proof.
  intros Hf Hin.
  apply list_elem_of_fmap in Hin as (a & Heq & _). symmetry in Heq. by apply Hf in Heq.
Qed.

(** What [sendMessage] handed to the transport is the envelope it built. *)
Lemma sendMessage_sent {C : Crypto} self random now sent conversationId plaintext
    encoder envelope :
  LightPushSend encoder envelope
    ∈ effects (sendMessage random now sent conversationId plaintext self) →
  ∃ conversation key,
    conversations self !! conversationId = Some conversation ∧
    outcome (deriveConversationKey conversation self) = Returned key ∧
    is_Some (waku self) ∧
    envelope = chat_envelope self random now conversationId plaintext key.
Proof.
  destruct (conversations self !! conversationId) as [conversation|] eqn:Hconv; last first.
  { unfold sendMessage. rewrite run_bind, run_getConversation, Hconv. proj.
    by intros Hin%not_elem_of_nil. }
  destruct (outcome (deriveConversationKey conversation self)) as [key|e] eqn:Hkey;
    last first.
  { unfold sendMessage. rewrite run_bind, run_getConversation, Hconv. proj.
    rewrite run_bind, Hkey. proj.
    destruct (deriveConversationKey_pure conversation self) as [_ ->].
    by intros Hin%not_elem_of_nil. }
  rewrite (run_sendMessage _ _ _ _ _ _ conversation key) by done.
  cbv zeta. intros Hin. exists conversation, key. split; [done|]. split; [done|].
  destruct (waku self) as [node|]; revert Hin; proj; intros Hin.
  - apply sent_after_delivered in Hin as [_ ->]; [|done]. split; [by eexists|done].
  - by apply sent_not_delivered in Hin.
Qed.

Lemma revokeMessage_sent {C : Crypto} self now sent conversationId targetMessageId
    encoder envelope :
  LightPushSend encoder envelope
    ∈ effects (revokeMessage now sent conversationId targetMessageId self) →
  ∃ conversation message,
    conversations self !! conversationId = Some conversation ∧
    messages self !! targetMessageId = Some message ∧
    canRevoke conversation (identity_id (identity self)) (senderId message) = true ∧
    is_Some (waku self) ∧
    envelope = tombstone_envelope self now conversationId targetMessageId.
Proof.
  destruct (conversations self !! conversationId) as [conversation|] eqn:Hconv; last first.
  { unfold revokeMessage. rewrite run_bind, run_getConversation, Hconv. proj.
    by intros Hin%not_elem_of_nil. }
  destruct (messages self !! targetMessageId) as [message|] eqn:Hm; last first.
  { unfold revokeMessage. rewrite run_bind, run_getConversation, Hconv. proj.
    rewrite run_this_bind, Hm. by intros Hin%not_elem_of_nil. }
  destruct (canRevoke conversation (identity_id (identity self)) (senderId message))
    eqn:Hcan; last first.
  { unfold revokeMessage. rewrite run_bind, run_getConversation, Hconv. proj.
    rewrite run_this_bind, Hm, Hcan. by intros Hin%not_elem_of_nil. }
  rewrite (run_revokeMessage _ _ _ _ _ conversation message) by done.
  cbv zeta. intros Hin. exists conversation, message. do 3 (split; [done|]).
  destruct (waku self) as [node|]; revert Hin; proj; intros Hin.
  - apply sent_after_delivered in Hin as [_ ->]; [|done]. split; [by eexists|done].
  - by apply sent_not_delivered in Hin.
Qed.

(** X17: on a client that was not started, [sendMessage] for a joined
    conversation whose key it can derive throws <<Client not initialized>>
    only when it comes to publish: by then the message is in the store and
    has reached the listeners of the conversation, and nothing is handed to
    the transport. *)
Theorem sendMessage_before_init {C : Crypto} (self : ChatClient) (random : bytes)
    (now : Z) (sent : SendOutcome) (conversationId plaintext : string)
    (conversation : ConversationConfig) (key : bytes) :
  waku self = None →
  conversations self !! conversationId = Some conversation →
  outcome (deriveConversationKey conversation self) = Returned key →
  let r := sendMessage random now sent conversationId plaintext self in
  ∃ message,
    outcome r = Thrown "Client not initialized" ∧
    final r = set_messages (insert (message_id message) message) self ∧
    text message = plaintext ∧ senderId message = identity_id (identity self) ∧
    message_conversationId message = conversationId ∧ timestamp message = now ∧
    revoked message = false ∧ deleted message = false ∧
    effects r = map (λ handler, Delivered handler (message_event message))
                    (default [] (handlers self !! conversationId)).
Proof.
  intros Hnode Hconv Hkey. cbv zeta.
  rewrite (run_sendMessage _ _ _ _ _ _ conversation key) by done.
  cbv zeta. rewrite Hnode. proj.
  by exists (sent_message (chat_envelope self random now conversationId plaintext key)
              plaintext).
Qed.

(** X27: with a node and at least one successful delivery, [sendMessage]
    returns the identifier it stored the message under: the canonical
    identifier of the conversation, the sender, the nonce, the ciphertext
    and the timestamp.  [getMessage] then answers the message with the
    plaintext, and the one envelope handed to the transport, after the
    listeners were reached, carries that identifier, nonce and ciphertext. *)
Theorem sendMessage_returns {C : Crypto} (self : ChatClient) (random : bytes)
    (now : Z) (successes : nat) (conversationId plaintext : string)
    (conversation : ConversationConfig) (key : bytes) (node : LightNode) :
  conversations self !! conversationId = Some conversation →
  outcome (deriveConversationKey conversation self) = Returned key →
  waku self = Some node →
  successes ≠ 0 →
  let r := sendMessage random now (send_resolves successes) conversationId plaintext
             self in
  let sealed := encryptPayload random plaintext key in
  let messageId :=
    canonicalId [conversationId; identity_id (identity self); sealed.1; sealed.2;
                 pretty now] in
  let message :=
    {| message_id := messageId; message_conversationId := conversationId;
       senderId := identity_id (identity self); text := plaintext;
       timestamp := now; revoked := false; deleted := false |} in
  outcome r = Returned messageId ∧
  getMessage messageId (final r) = unchanged (Some message) (final r) ∧
  ∃ envelope,
    effects r =
      (map (λ handler, Delivered handler (message_event message))
           (default [] (handlers self !! conversationId))
       ++ [LightPushSend (encoder_for self conversationId) envelope])%list ∧
    wire_messageId envelope = messageId ∧
    wire_nonce envelope = Some sealed.1 ∧
    wire_ciphertext envelope = Some sealed.2.
Proof.
  intros Hconv Hkey Hnode Hsuccesses. cbv zeta.
  rewrite (run_sendMessage _ _ _ _ _ _ conversation key) by done.
  cbv zeta. rewrite Hnode. proj.
  destruct successes as [|n]; [done|]. cbn [publish_outcome].
  split; [done|]. split.
  - unfold getMessage. rewrite run_this_bind. proj.
    match goal with
    | |- context [with_encoder ?s ?c] =>
        destruct (with_encoder_messages s c) as (-> & _)
    end.
    proj. by rewrite lookup_insert_eq.
  - by eexists.
Qed.

(** X18: every envelope a client with a signing key pair hands to the
    transport passes the signature check [handleDecodedMessage] makes.  One
    from [sendMessage] is a chat envelope of the conversation in the
    client's name, stamped with the time of the call, whose identifier is
    that of the message the client stored; one from [revokeMessage] is a
    tombstone envelope in the client's name for the target, with no nonce
    and no ciphertext. *)
Theorem sent_envelopes_verify {C : Crypto} (self : ChatClient) (encoder : IEncoder)
    (envelope : WireMessage) :
  base64_roundtrip C → ed25519_correct C → signing_pair (identity self) →
  (∀ random now sent conversationId plaintext,
     LightPushSend encoder envelope
       ∈ effects (sendMessage random now sent conversationId plaintext self) →
     signatureValid envelope = true ∧
     wire_v envelope = 1%Z ∧ wire_type envelope = chat ∧
     wire_conversationId envelope = conversationId ∧
     wire_senderId envelope = identity_id (identity self) ∧
     wire_timestamp envelope = now ∧
     wire_targetMessageId envelope = None ∧
     ∃ message,
       messages (final (sendMessage random now sent conversationId plaintext self))
         !! wire_messageId envelope = Some message ∧
       text message = plaintext) ∧
  (∀ now sent conversationId targetMessageId,
     LightPushSend encoder envelope
       ∈ effects (revokeMessage now sent conversationId targetMessageId self) →
     signatureValid envelope = true ∧
     wire_v envelope = 1%Z ∧ wire_type envelope = tombstone ∧
     wire_conversationId envelope = conversationId ∧
     wire_senderId envelope = identity_id (identity self) ∧
     wire_timestamp envelope = now ∧
     wire_targetMessageId envelope = Some targetMessageId ∧
     wire_nonce envelope = None ∧ wire_ciphertext envelope = None).
Proof.
  intros Hb64 Hed Hpair. split.
  - intros random now sent conversationId plaintext Hin.
    destruct (sendMessage_sent _ _ _ _ _ _ _ _ Hin)
      as (conversation & key & Hconv & Hkey & [node Hnode] & ->).
    split; [by apply chat_envelope_valid|]. do 6 (split; [done|]).
    rewrite (run_sendMessage _ _ _ _ _ _ conversation key) by done.
    cbv zeta. rewrite Hnode. proj.
    match goal with
    | |- context [with_encoder ?s ?c] =>
        destruct (with_encoder_messages s c) as (-> & _)
    end.
    proj. eexists. by rewrite lookup_insert_eq.
  - intros now sent conversationId targetMessageId Hin.
    destruct (revokeMessage_sent _ _ _ _ _ _ _ Hin)
      as (conversation & message & Hconv & Hm & Hcan & [node Hnode] & ->).
    split; [by apply tombstone_envelope_valid|]. by repeat split.
Qed.

(** ** From one client to another *)


(** ** Deliveries that store nothing *)

Lemma run_storeDecrypted_cases {C : Crypto} self conversationId parsed ciphertext nonce
    key :
  storeDecrypted conversationId parsed ciphertext nonce key self =
  match decryptPayload ciphertext nonce key with
  | None => {| outcome := Thrown "invalid tag"; final := self; effects := [] |}
  | Some text =>
      match messages self !! wire_messageId parsed with
      | Some _ => unchanged () self
      | None =>
          let stored :=
            message_of conversationId parsed text
              (bool_decide (is_Some (pendingTombstones self !! wire_messageId parsed))) in
          {| outcome := Returned ();
             final := set_messages (insert (wire_messageId parsed) stored) self;
             effects := map (λ handler, Delivered handler (message_event stored))
                            (default [] (handlers self !! conversationId)) |}
      end
  end.
Proof.
  destruct (decryptPayload ciphertext nonce key) as [text|] eqn:Hdec.
  - destruct (messages self !! wire_messageId parsed) as [m|] eqn:Hm.
    + unfold storeDecrypted. rewrite Hdec, run_this_bind. cbn [message_id].
      rewrite Hm. by rewrite decide_True by (by eexists).
    + by apply run_storeDecrypted.
  - unfold storeDecrypted. by rewrite Hdec.
Qed.

Ltac idle :=
  solve [proj; repeat (split; [reflexivity|]);
         first [ intros ? Hin; by apply not_elem_of_nil in Hin
               | intros ? ?; apply not_elem_of_nil ]].

(** X20: a chat envelope whose identifier is already in the store changes
    nothing, whatever else it carries and whoever signed it: the stored
    message keeps its content and its flags, and no event reaches a
    listener. *)
Theorem redelivery_ignored {C : Crypto} (self : ChatClient) (conversationId : string)
    (parsed : WireMessage) (m : ChatMessage) :
  wire_type parsed = chat →
  messages self !! wire_messageId parsed = Some m →
  let r := handleDecodedMessage conversationId (deliver parsed) self in
  final r = self ∧
  ∀ handler event, Delivered handler event ∉ effects r.
Proof.
  intros Htype Hm. cbv zeta.
  unfold handleDecodedMessage, deliver. cbn [payload].
  destruct (decide (wire_conversationId parsed ≠ conversationId)) as [Hcid|Hcid];
    [idle|].
  cbv zeta. destruct (negb _); [idle|].
  rewrite decide_False by (by rewrite Htype).
  destruct (wire_ciphertext parsed) as [[|c1 ciphertext]|],
           (wire_nonce parsed) as [[|c2 nonce]|]; try idle.
  rewrite run_bind, run_getConversation.
  destruct (conversations self !! conversationId) as [conversation|]; proj; [|idle].
  rewrite run_bind.
  destruct (deriveConversationKey_pure conversation self) as [Hf He].
  destruct (outcome (deriveConversationKey conversation self)) as [key|error] eqn:Hkey;
    proj; rewrite ?Hf, ?He; [|idle].
  rewrite run_this_bind. unfold try_catch. rewrite run_storeDecrypted_cases, Hm.
  destruct (decryptPayload _ _ key) as [text|]; proj; [idle|].
  split; [done|].
  intros handler event Hin. apply list_elem_of_singleton in Hin. discriminate Hin.
Qed.

(** X21: a chat envelope of the conversation with a valid signature whose
    ciphertext does not open under the conversation key is caught: the
    handler returns normally, the client is as before, nothing reaches a
    listener, and one line is written to the error console. *)
Theorem decryption_failure_logged {C : Crypto} (self : ChatClient)
    (conversationId : string) (parsed : WireMessage) (ciphertext nonce : string)
    (conversation : ConversationConfig) (key : bytes) :
  wire_conversationId parsed = conversationId →
  signatureValid parsed = true →
  wire_type parsed = chat →
  wire_ciphertext parsed = Some ciphertext → ciphertext ≠ "" →
  wire_nonce parsed = Some nonce → nonce ≠ "" →
  conversations self !! conversationId = Some conversation →
  outcome (deriveConversationKey conversation self) = Returned key →
  decryptPayload ciphertext nonce key = None →
  let r := handleDecodedMessage conversationId (deliver parsed) self in
  outcome r = Returned () ∧ final r = self ∧
  ∃ line, effects r = [ConsoleError line].
Proof.
  intros Hcid Hsig Htype Hc Hcne Hn Hnne Hconv Hkey Hdec. cbv zeta.
  unfold handleDecodedMessage, deliver. cbn [payload].
  rewrite decide_False by (intros Hx; by apply Hx).
  cbv zeta. fold (signatureValid parsed). rewrite Hsig. cbn [negb].
  rewrite decide_False by (by rewrite Htype).
  rewrite Hc, Hn.
  destruct ciphertext as [|c1 ciphertext]; [done|].
  destruct nonce as [|c2 nonce]; [done|].
  rewrite (run_bind_returned _ _ self conversation self)
    by (by rewrite run_getConversation, Hconv).
  rewrite (run_bind_returned _ _ self key self)
    by (by apply run_deriveConversationKey).
  rewrite run_this_bind. unfold try_catch. rewrite run_storeDecrypted_cases, Hdec.
  proj. split; [done|]. split; [done|]. by eexists.
Qed.

(** ** Tombstones for a stored message *)

(** X22: an inbound tombstone with a valid signature whose target is in the
    store is applied exactly when the sender identifier it carries is that
    of the stored message or is in the admin set of the conversation it came
    on, whatever conversation the stored message belongs to: the message is
    then stored revoked and the tombstone event reaches the listeners of the
    conversation; otherwise the client is as before and nobody is reached. *)
Theorem inbound_tombstone_authorization {C : Crypto} (self : ChatClient)
    (conversationId : string) (parsed : WireMessage) (target : string)
    (conversation : ConversationConfig) (m : ChatMessage) :
  wire_conversationId parsed = conversationId →
  signatureValid parsed = true →
  wire_type parsed = tombstone →
  wire_targetMessageId parsed = Some target → target ≠ "" →
  conversations self !! conversationId = Some conversation →
  messages self !! target = Some m →
  let issuer := wire_senderId parsed in
  let admins := default [] (adminIds conversation) in
  let r := handleDecodedMessage conversationId (deliver parsed) self in
  (issuer = senderId m ∨ issuer ∈ admins →
   outcome r = Returned () ∧
   final r = set_messages (insert target (set_revoked true m)) self ∧
   effects r = map (λ handler, Delivered handler
                                 (tombstone_event (tombstone_of parsed target)))
                   (default [] (handlers self !! conversationId))) ∧
  (issuer ≠ senderId m → issuer ∉ admins → r = unchanged () self).
Proof.
  intros Hcid Hsig Htype Htarget Hne Hconv Hm. cbv zeta.
  rewrite (handleDecodedMessage_tombstone _ _ _ _ _ Hcid Hsig Htype Htarget Hne Hconv).
  rewrite Hm. cbn [fmap option_fmap option_map default]. unfold id.
  destruct (canRevoke conversation (wire_senderId parsed) (senderId m)) eqn:Hcan.
  - rewrite (applyTombstone_stored _ _ _ m) by done. proj.
    split; [done|]. intros Hne1 Hne2. apply canRevoke_spec in Hcan. tauto.
  - split; [|done]. intros Hauth. apply canRevoke_spec in Hauth. congruence.
Qed.

(** ** Revoking *)

(** X23: [revokeMessage] on a joined conversation throws <<Message not
    found>> and changes nothing when the target is not stored.  When the
    target is stored and the client is its sender or an admin, the target is
    stored revoked and the tombstone event has reached the listeners before
    anything is published, so this stays when publishing fails: with a node
    the call ends as the publication does, after one tombstone envelope for
    the target in the client's name was handed over; without a node it
    throws <<Client not initialized>>. *)
Theorem revokeMessage_not_rolled_back {C : Crypto} (self : ChatClient) (now : Z)
    (sent : SendOutcome) (conversationId targetMessageId : string)
    (conversation : ConversationConfig) :
  conversations self !! conversationId = Some conversation →
  let r := revokeMessage now sent conversationId targetMessageId self in
  let issuer := identity_id (identity self) in
  let t := {| types.targetMessageId := targetMessageId; issuerId := issuer;
              tombstone_timestamp := now |} in
  let delivered :=
    map (λ handler, Delivered handler (tombstone_event t))
        (default [] (handlers self !! conversationId)) in
  (messages self !! targetMessageId = None →
   r = {| outcome := Thrown "Message not found"; final := self; effects := [] |}) ∧
  (∀ message,
     messages self !! targetMessageId = Some message →
     issuer = senderId message ∨ issuer ∈ default [] (adminIds conversation) →
     messages (final r) = <[targetMessageId := set_revoked true message]> (messages self) ∧
     pendingTombstones (final r) = pendingTombstones self ∧
     match waku self with
     | None => outcome r = Thrown "Client not initialized" ∧ effects r = delivered
     | Some _ =>
         outcome r = publish_outcome sent ∧
         ∃ envelope,
           effects r
           = (delivered ++ [LightPushSend (encoder_for self conversationId) envelope])%list ∧
           wire_type envelope = tombstone ∧
           wire_targetMessageId envelope = Some targetMessageId ∧
           wire_senderId envelope = issuer ∧
           wire_conversationId envelope = conversationId
     end).
Proof.
  intros Hconv. cbv zeta. split.
  - intros Hnone. unfold revokeMessage.
    rewrite run_bind, run_getConversation, Hconv. proj.
    by rewrite run_this_bind, Hnone.
  - intros message Hm Hauth. apply canRevoke_spec in Hauth.
    rewrite (run_revokeMessage _ _ _ _ _ conversation message) by done.
    cbv zeta. destruct (waku self) as [node|]; proj; [|done].
    match goal with
    | |- context [with_encoder ?s ?c] =>
        destruct (with_encoder_messages s c) as (-> & -> & _)
    end.
    proj. split; [done|]. split; [done|]. split; [done|].
    by eexists.
Qed.

(** X24: a tombstone envelope that [revokeMessage] handed to the transport,
    delivered to a client that has the conversation under the same
    configuration and holds the target from the same sender as the issuer
    does, is applied there: the target is stored revoked and the tombstone
    event, naming the issuer and the time of the revocation, reaches the
    receiver's listeners of the conversation. *)
Theorem revoke_receive {C : Crypto} (issuer receiver : ChatClient) (now : Z)
    (sent : SendOutcome) (conversationId targetMessageId : string)
    (conversation : ConversationConfig) (held stored : ChatMessage)
    (encoder : IEncoder) (envelope : WireMessage) :
  base64_roundtrip C → ed25519_correct C → signing_pair (identity issuer) →
  conversations issuer !! conversationId = Some conversation →
  conversations receiver !! conversationId = Some conversation →
  messages issuer !! targetMessageId = Some held →
  messages receiver !! targetMessageId = Some stored →
  senderId held = senderId stored →
  targetMessageId ≠ "" →
  LightPushSend encoder envelope
    ∈ effects (revokeMessage now sent conversationId targetMessageId issuer) →
  let r := handleDecodedMessage conversationId (deliver envelope) receiver in
  let t := {| types.targetMessageId := targetMessageId;
              issuerId := identity_id (identity issuer);
              tombstone_timestamp := now |} in
  outcome r = Returned () ∧
  final r = set_messages (insert targetMessageId (set_revoked true stored)) receiver ∧
  effects r = map (λ handler, Delivered handler (tombstone_event t))
                  (default [] (handlers receiver !! conversationId)).
Proof.
  intros Hb64 Hed Hpair Hci Hcr Hmi Hmr Hsender Hne Hin. cbv zeta.
  destruct (revokeMessage_sent _ _ _ _ _ _ _ Hin)
    as (conversation' & message & Hconv & Hm & Hcan & _ & ->).
  rewrite Hci in Hconv. injection Hconv as <-.
  rewrite Hmi in Hm. injection Hm as <-.
  rewrite (handleDecodedMessage_tombstone receiver conversationId _ targetMessageId
             conversation); try done; [|by apply tombstone_envelope_valid].
  rewrite Hmr. cbn [fmap option_fmap option_map default]. unfold id.
  cbn [wire_senderId tombstone_envelope signed]. rewrite <- Hsender, Hcan.
  by rewrite (applyTombstone_stored _ _ _ stored).
Qed.

(** ** Envelopes that cannot be read *)


(** ** What a delivery leaves alone *)

Lemma applyTombstone_rest {C : Crypto} conversationId t self :
  let r := applyTombstone conversationId t self in
  outcome r = Returned () ∧
  identity (final r) = identity self ∧ waku (final r) = waku self ∧
  config (final r) = config self ∧ conversations (final r) = conversations self ∧
  handlers (final r) = handlers self ∧ decoderCache (final r) = decoderCache self ∧
  encoderCache (final r) = encoderCache self ∧ subscribed (final r) = subscribed self ∧
  effects r = map (λ handler, Delivered handler (tombstone_event t))
                  (default [] (handlers self !! conversationId)).
Proof.
  cbv zeta. destruct (messages self !! targetMessageId t) as [m|] eqn:Hm.
  - by rewrite (applyTombstone_stored _ _ _ m).
  - by rewrite applyTombstone_unknown.
Qed.

(** X25: whatever is delivered, [handleDecodedMessage] changes nothing of
    the client but its messages and its pending tombstones, hands nothing to
    the transport and subscribes to nothing: all it does besides is to
    deliver events to listeners of the conversation it was called for and to
    write to the error console. *)
Theorem handleDecodedMessage_frame {C : Crypto} (self : ChatClient)
    (conversationId : string) (message : IDecodedMessage) :
  let r := handleDecodedMessage conversationId message self in
  identity (final r) = identity self ∧ waku (final r) = waku self ∧
  config (final r) = config self ∧ conversations (final r) = conversations self ∧
  handlers (final r) = handlers self ∧ decoderCache (final r) = decoderCache self ∧
  encoderCache (final r) = encoderCache self ∧ subscribed (final r) = subscribed self ∧
  ∀ e, e ∈ effects r →
       (∃ handler event,
          e = Delivered handler event ∧
          handler ∈ default [] (handlers self !! conversationId)) ∨
       (∃ line, e = ConsoleError line).
Proof.
  cbv zeta. unfold handleDecodedMessage.
  destruct (payload message) as [[|parsed]|]; try idle.
  destruct (decide (wire_conversationId parsed ≠ conversationId)) as [Hcid|Hcid];
    [idle|].
  cbv zeta. destruct (negb _); [idle|].
  destruct (decide (wire_type parsed = tombstone)) as [Htype|Htype].
  - destruct (wire_targetMessageId parsed) as [[|c target]|]; try idle.
    rewrite run_bind, run_getConversation.
    destruct (conversations self !! conversationId) as [conversation|]; proj;
      [|idle].
    rewrite run_this_bind.
    destruct (canRevoke _ _ _); [|idle].
    match goal with
    | |- context [applyTombstone ?c ?t self] =>
        destruct (applyTombstone_rest c t self)
          as (_ & ? & ? & ? & ? & ? & ? & ? & ? & He)
    end.
    repeat (split; [done|]). rewrite He. intros e Hin.
    apply list_elem_of_fmap in Hin as (handler & -> & Hin). left. by eexists _, _.
  - destruct (wire_ciphertext parsed) as [[|c1 ciphertext]|],
             (wire_nonce parsed) as [[|c2 nonce]|]; try idle.
    rewrite run_bind, run_getConversation.
    destruct (conversations self !! conversationId) as [conversation|]; proj;
      [|idle].
    rewrite run_bind.
    destruct (deriveConversationKey_pure conversation self) as [Hf He].
    destruct (outcome (deriveConversationKey conversation self)) as [key|error] eqn:Hkey;
      proj; rewrite ?Hf, ?He; [|idle].
    rewrite run_this_bind. unfold try_catch. rewrite run_storeDecrypted_cases.
    destruct (decryptPayload _ _ key) as [text|]; proj.
    + destruct (messages self !! wire_messageId parsed) as [m|]; [idle|].
      cbv zeta. proj. repeat (split; [done|]). intros e Hin.
      apply list_elem_of_fmap in Hin as (handler & -> & Hin). left. by eexists _, _.
    + repeat (split; [done|]). intros e Hin.
      apply list_elem_of_singleton in Hin as ->. right. by eexists.
Qed.

(** ** The key an envelope is checked against *)

(** X26: [handleDecodedMessage] checks the signature of an envelope against
    the signing key the envelope itself carries; it compares that key
    neither with the sender identifier nor with the participants of the
    conversation.  So an envelope signed anew with any key pair passes the
    check with its sender identifier unchanged, and a tombstone so signed
    that names the sender of a stored message as its issuer revokes that
    message. *)
Theorem envelope_checked_against_carried_key {C : Crypto} (parsed : WireMessage)
    (privateKey : bytes) :
  base64_roundtrip C → ed25519_correct C →
  let envelope := resigned parsed privateKey in
  signatureValid envelope = true ∧
  wire_senderId envelope = wire_senderId parsed ∧
  ∀ (self : ChatClient) (target : string) (conversation : ConversationConfig)
    (m : ChatMessage),
    wire_type parsed = tombstone →
    wire_targetMessageId parsed = Some target → target ≠ "" →
    conversations self !! wire_conversationId parsed = Some conversation →
    messages self !! target = Some m →
    wire_senderId parsed = senderId m →
    messages (final (handleDecodedMessage (wire_conversationId parsed)
                       (deliver envelope) self)) !! target
    = Some (set_revoked true m).
Proof.
  intros Hb64 Hed. cbv zeta.
  assert (signatureValid (resigned parsed privateKey) = true) as Hvalid.
  { apply signed_valid; try done. cbn [wire_senderEd25519 with_key]. apply Hb64. }
  split; [done|]. split; [done|].
  intros self target conversation m Htype Htarget Hne Hconv Hm Hsender.
  rewrite (handleDecodedMessage_tombstone self (wire_conversationId parsed)
             (resigned parsed privateKey) target conversation)
    by done.
  rewrite Hm.
  cbn [fmap option_fmap option_map default wire_senderId resigned signed with_key].
  unfold id.
  assert (canRevoke conversation (wire_senderId parsed) (senderId m) = true) as ->.
  { apply canRevoke_spec. by left. }
  rewrite (applyTombstone_stored _ _ _ m) by done. proj.
  by rewrite lookup_insert_eq.
Qed.

(** ** The theorems at concrete runs *)

Import Symbolic Scenario.





(** Carol, who is neither bob nor an admin, cannot revoke bob's message. *)
Lemma revokeMessage_authorization_witness :
  let carol1 :=
    final (handleDecodedMessage "room" (deliver bob_room_message) (client_of carol)) in
  let r := revokeMessage 6000 (send_resolves 1) "room"
             (wire_messageId bob_room_message) carol1 in
  outcome r = Thrown "Not authorized to revoke" ∧
  final r = carol1 ∧
  messages (final r) !! wire_messageId bob_room_message
    = Some (message_of "room" bob_room_message "hello room" false) ∧
  effects r = [].
Proof.
  refine (proj1 (revokeMessage_authorization
                   (final (handleDecodedMessage "room" (deliver bob_room_message)
                             (client_of carol)))
                   6000 (send_resolves 1) "room" (wire_messageId bob_room_message)
                   room (message_of "room" bob_room_message "hello room" false)
                   _ _) _ _);
    try (vm_compute; reflexivity); try (vm_compute; discriminate).
  vm_compute. intros Hin. apply list_elem_of_singleton in Hin. discriminate Hin.
Defined.


(** Bob's direct message, validly signed, is ignored on the subscription of
    the group. *)
Lemma foreign_conversation_ignored_witness :
  signatureValid bob_message = true ∧
  let r := handleDecodedMessage "room" (deliver bob_message) (client_of alice) in
  outcome r = Returned () ∧
  final r = client_of alice ∧
  messages (final r) = messages (client_of alice) ∧
  pendingTombstones (final r) = pendingTombstones (client_of alice) ∧
  effects r = [].
Proof.
  split; [vm_compute; reflexivity|].
  refine (foreign_conversation_ignored (client_of alice) "room" bob_message _).
  vm_compute. discriminate.
Defined.

(** Alice sends to the group and the transport reports no delivery. *)
Lemma sendMessage_not_rolled_back_witness :
  let r := sendMessage (utf8 "nonce-4") 7000 (send_resolves 0) "room" "anyone?"
             (client_of alice) in
  ∃ (messageId : string) (message : ChatMessage) (envelope : WireMessage),
    outcome r = Thrown "LightPush send failed" ∧
    messages (final r) = <[messageId := message]> (messages (client_of alice)) ∧
    messages (final r) !! messageId = Some message ∧
    pendingTombstones (final r) = pendingTombstones (client_of alice) ∧
    message_id message = messageId ∧
    message_conversationId message = "room" ∧
    senderId message = "alice" ∧
    text message = "anyone?" ∧ timestamp message = 7000%Z ∧
    revoked message = false ∧ deleted message = false ∧
    effects r =
      (map (λ handler, Delivered handler (message_event message)) [7]
       ++ [LightPushSend "/waku-chat/1/room/json" envelope])%list ∧
    wire_type envelope = chat ∧ wire_messageId envelope = messageId ∧
    wire_conversationId envelope = "room".
Proof.
  refine (sendMessage_not_rolled_back (client_of alice) (utf8 "nonce-4") 7000
            (send_resolves 0) "room" "anyone?" room
            (deriveGroupKey "room" (fromBase64 "secret")) light_node _ _ _ _);
    try (vm_compute; reflexivity).
  by left.
Defined.




(** ** The further properties at concrete runs *)



(** Alice's identifier decodes to her signing key, and what she signs
    verifies against it. *)
Lemma createIdentity_keys_witness :
  fromBase64 (identity_id alice) = ed25519PublicKey alice ∧
  verifyPayload sample_payload (signPayload sample_payload (ed25519PrivateKey alice))
    (fromBase64 (identity_id alice)) = true.
Proof.
  destruct (createIdentity_keys (utf8 "alice") (utf8 "alice-x")
              symbolic_base64_ok symbolic_ed25519_ok) as (Hid & Hsign & _).
  split; [exact Hid|exact (Hsign sample_payload)].
Defined.

(** Alice and bob derive one key for their direct conversation. *)
Lemma deriveConversationKey_agreement_witness :
  ∃ key,
    outcome (deriveConversationKey chatting (client_of alice)) = Returned key ∧
    outcome (deriveConversationKey chatting (client_of bob)) = Returned key.
Proof.
  refine (deriveConversationKey_agreement (client_of alice) (client_of bob) chatting
            symbolic_x25519_ok _ _ _ _ _ _ _);
    try (vm_compute; reflexivity); try (vm_compute; discriminate).
  - apply Forall_cons. split; [left; by split|].
    apply Forall_cons. split; [right; by split|]. constructor.
  - apply Exists_cons_hd. reflexivity.
  - apply Exists_cons_tl, Exists_cons_hd. reflexivity.
Defined.


(** Alice's encoder for the group, asked for twice. *)
Lemma getEncoder_cached_witness :
  let r := getEncoder "room" (client_of alice) in
  effects r = [] ∧
  getEncoder "room" (final r) = unchanged "/waku-chat/1/room/json" (final r) ∧
  (∀ other, outcome (contentTopicFor other (client_of alice))
              = outcome (contentTopicFor "room" (client_of alice)) →
            other = "room").
Proof.
  refine (getEncoder_cached (client_of alice) "room" "/waku-chat/1/room/json" _).
  vm_compute. reflexivity.
Defined.

(** Carol has left the group: she cannot send to it, and alice's tombstone
    does not reach her store. *)
Lemma unjoined_conversation_inert_witness :
  let left := final (leaveConversation "room" carol_holds) in
  sendMessage (utf8 "nonce-6") 9000 (send_resolves 1) "room" "still here?" left
  = {| outcome := Thrown "Conversation room not found"; final := left; effects := [] |} ∧
  final (handleDecodedMessage "room" (deliver alice_tombstone) left) = left.
Proof.
  destruct (unjoined_conversation_inert (final (leaveConversation "room" carol_holds))
              "room") as (Hsend & _ & Hdeliver); [vm_compute; reflexivity|].
  cbv zeta. split; [apply Hsend|apply Hdeliver].
Defined.


(** Carol lists the group after bob's message has reached her. *)
Lemma listed_message_fetched_by_id_witness :
  let self := run_calls carol_starts (new_ChatClient carol default_config) in
  let m := message_of "room" bob_room_message "hello room" false in
  getMessage (message_id m) self = unchanged (Some m) self ∧
  message_conversationId m = "room" ∧ deleted m = false.
Proof.
  refine (listed_message_fetched_by_id carol default_config carol_starts "room"
            [message_of "room" bob_room_message "hello room" false]
            (message_of "room" bob_room_message "hello room" false) _ _).
  - vm_compute. reflexivity.
  - apply list_elem_of_here.
Defined.

(** Bob's message in carol's store, through alice's tombstone, a deletion, a
    second delivery and carol's leaving the group. *)
Lemma stored_message_ages_witness :
  ∃ m', messages (run_calls carol_goes_on carol_holds)
          !! wire_messageId bob_room_message = Some m' ∧
        aged (message_of "room" bob_room_message "hello room" false) m'.
Proof.
  refine (stored_message_ages carol_holds carol_goes_on
            (wire_messageId bob_room_message)
            (message_of "room" bob_room_message "hello room" false) _ _).
  - by repeat constructor.
  - vm_compute. reflexivity.
Defined.

(** Alice writes to the group before her client is started. *)
Lemma sendMessage_before_init_witness :
  let r := sendMessage (utf8 "nonce-7") 9500 (send_resolves 1) "room" "too early"
             (offline alice) in
  ∃ message,
    outcome r = Thrown "Client not initialized" ∧
    final r = set_messages (insert (message_id message) message) (offline alice) ∧
    text message = "too early" ∧ senderId message = "alice" ∧
    message_conversationId message = "room" ∧ timestamp message = 9500%Z ∧
    revoked message = false ∧ deleted message = false ∧
    effects r = [Delivered 7 (message_event message)].
Proof.
  refine (sendMessage_before_init (offline alice) (utf8 "nonce-7") 9500
            (send_resolves 1) "room" "too early" room
            (deriveGroupKey "room" (fromBase64 "secret")) _ _ _);
    vm_compute; reflexivity.
Defined.

(** What bob sent to the group verifies. *)
Lemma sent_envelopes_verify_witness :
  signatureValid bob_room_message = true ∧
  wire_type bob_room_message = chat ∧
  wire_senderId bob_room_message = "bob".
Proof.
  destruct (sent_envelopes_verify (client_of bob) "/waku-chat/1/room/json"
              bob_room_message symbolic_base64_ok symbolic_ed25519_ok)
    as [Hsend _]; [vm_compute; reflexivity|].
  destruct (Hsend (utf8 "nonce-2") 3000%Z (send_resolves 1) "room" "hello room")
    as (Hvalid & _ & Htype & _ & Hsender & _).
  - vm_compute. apply list_elem_of_further, list_elem_of_here.
  - split; [exact Hvalid|]. split; [exact Htype|exact Hsender].
Defined.


(** Bob's message reaches carol a second time. *)
Lemma redelivery_ignored_witness :
  let r := handleDecodedMessage "room" (deliver bob_room_message) carol_holds in
  final r = carol_holds ∧ ∀ handler event, Delivered handler event ∉ effects r.
Proof.
  refine (redelivery_ignored carol_holds "room" bob_room_message
            (message_of "room" bob_room_message "hello room" false) _ _);
    vm_compute; reflexivity.
Defined.

(** Bob's message with a ciphertext that does not open reaches carol. *)
Lemma decryption_failure_logged_witness :
  let r := handleDecodedMessage "room" (deliver garbled) (client_of carol) in
  outcome r = Returned () ∧ final r = client_of carol ∧
  ∃ line, effects r = [ConsoleError line].
Proof.
  refine (decryption_failure_logged (client_of carol) "room" garbled "garbled"
            (default "" (wire_nonce bob_room_message)) room
            (deriveGroupKey "room" (fromBase64 "secret")) _ _ _ _ _ _ _ _ _ _);
    try (vm_compute; reflexivity); try (vm_compute; discriminate).
Defined.

(** Alice's tombstone reaches carol, who holds bob's message. *)
Lemma inbound_tombstone_authorization_witness :
  let target := wire_messageId bob_room_message in
  let r := handleDecodedMessage "room" (deliver alice_tombstone) carol_holds in
  outcome r = Returned () ∧
  final r = set_messages
              (insert target
                 (set_revoked true (message_of "room" bob_room_message "hello room" false)))
              carol_holds ∧
  effects r = map (λ handler, Delivered handler
                                (tombstone_event (tombstone_of alice_tombstone target)))
                  (default [] (handlers carol_holds !! "room")).
Proof.
  refine (proj1 (inbound_tombstone_authorization carol_holds "room" alice_tombstone
                   (wire_messageId bob_room_message) room
                   (message_of "room" bob_room_message "hello room" false)
                   _ _ _ _ _ _ _) _);
    try (vm_compute; reflexivity); try (vm_compute; discriminate).
  right. vm_compute. apply list_elem_of_here.
Defined.

(** Alice revokes bob's message and the transport reports no delivery. *)
Lemma revokeMessage_not_rolled_back_witness :
  let target := wire_messageId bob_room_message in
  let r := revokeMessage 4000 (send_resolves 0) "room" target alice_holds in
  outcome r = Thrown "LightPush send failed" ∧
  messages (final r)
  = <[target := set_revoked true (message_of "room" bob_room_message "hello room" false)]>
      (messages alice_holds).
Proof.
  pose proof (revokeMessage_not_rolled_back alice_holds 4000 (send_resolves 0) "room"
                (wire_messageId bob_room_message) room) as Hrevoke.
  destruct Hrevoke as [_ Hrevoke]; [vm_compute; reflexivity|].
  destruct (Hrevoke (message_of "room" bob_room_message "hello room" false))
    as (Hmessages & _ & Hrest).
  - vm_compute. reflexivity.
  - right. vm_compute. apply list_elem_of_here.
  - assert (waku alice_holds = Some light_node) as Hnode by (vm_compute; reflexivity).
    rewrite Hnode in Hrest. destruct Hrest as [Hout _].
    cbv zeta. split; [exact Hout|exact Hmessages].
Defined.

(** Alice's tombstone for bob's message reaches carol. *)
Lemma revoke_receive_witness :
  let target := wire_messageId bob_room_message in
  let r := handleDecodedMessage "room" (deliver alice_tombstone) carol_holds in
  let t := {| targetMessageId := target; issuerId := "alice";
              tombstone_timestamp := 4000 |} in
  outcome r = Returned () ∧
  final r = set_messages
              (insert target
                 (set_revoked true (message_of "room" bob_room_message "hello room" false)))
              carol_holds ∧
  effects r = [Delivered 7 (tombstone_event t)].
Proof.
  refine (revoke_receive alice_holds carol_holds 4000 (send_resolves 1) "room"
            (wire_messageId bob_room_message) room
            (message_of "room" bob_room_message "hello room" false)
            (message_of "room" bob_room_message "hello room" false)
            "/waku-chat/1/room/json" alice_tombstone
            symbolic_base64_ok symbolic_ed25519_ok _ _ _ _ _ _ _ _);
    try (vm_compute; reflexivity); try (vm_compute; discriminate).
  vm_compute. apply list_elem_of_further, list_elem_of_here.
Defined.

(** A tombstone in bob's name, signed with another key, reaches carol. *)
Lemma envelope_checked_against_carried_key_witness :
  signatureValid borrowed_name = true ∧
  wire_senderId borrowed_name = "bob" ∧
  messages (final (handleDecodedMessage "room" (deliver borrowed_name) carol_holds))
    !! wire_messageId bob_room_message
  = Some (message_of "room" bob_room_message "hello room" true).
Proof.
  destruct (envelope_checked_against_carried_key in_bobs_name (utf8 "another key")
              symbolic_base64_ok symbolic_ed25519_ok) as (Hvalid & Hsender & Hrevoked).
  split; [exact Hvalid|]. split; [exact Hsender|].
  refine (Hrevoked carol_holds (wire_messageId bob_room_message) room
            (message_of "room" bob_room_message "hello room" false) _ _ _ _ _ _);
    try (vm_compute; reflexivity); try (vm_compute; discriminate).
Defined.

(** Bob's send to the group returns the identifier his message is stored
    under. *)
Lemma sendMessage_returns_witness :
  let r := sendMessage (utf8 "nonce-2") 3000 (send_resolves 1) "room" "hello room"
             (client_of bob) in
  let sealed :=
    encryptPayload (utf8 "nonce-2") "hello room"
      (deriveGroupKey "room" (fromBase64 "secret")) in
  let messageId := canonicalId ["room"; "bob"; sealed.1; sealed.2; pretty 3000%Z] in
  outcome r = Returned messageId ∧
  ∃ message,
    getMessage messageId (final r) = unchanged (Some message) (final r) ∧
    text message = "hello room" ∧ senderId message = "bob".
Proof.
  destruct (sendMessage_returns (client_of bob) (utf8 "nonce-2") 3000 1 "room"
              "hello room" room (deriveGroupKey "room" (fromBase64 "secret"))
              light_node) as (Hout & Hget & _);
    [vm_compute; reflexivity|vm_compute; reflexivity|reflexivity|discriminate|].
  split; [exact Hout|]. eexists. split; [exact Hget|]. split; reflexivity.
Defined.


(** Carol subscribes a second handler to the group, twice. *)
Lemma subscribe_registers_witness :
  let event := message_event (message_of "room" bob_room_message "hello room" false) in
  let r := subscribe true "room" 9 (client_of carol) in
  outcome r = Returned () ∧
  reached "room" event (final r) = [7; 9] ∧
  reached "room" event (final (subscribe true "room" 9 (final r))) = [7; 9] ∧
  effects (subscribe true "room" 9 (offline carol)) = [].
Proof.
  destruct (subscribe_registers (client_of carol) true "room" 9
              (message_event (message_of "room" bob_room_message "hello room" false)))
    as (Hout & Hreached & _ & Hagain & _).
  destruct (subscribe_registers (offline carol) true "room" 9
              (message_event (message_of "room" bob_room_message "hello room" false)))
    as (_ & _ & _ & _ & Hoffline).
  cbv zeta. split; [exact Hout|].
  split; [rewrite Hreached; vm_compute; reflexivity|].
  split; [rewrite Hagain, Hreached; vm_compute; reflexivity|].
  by apply Hoffline.
Defined.

(** Carol deletes bob's message and fetches it again. *)
Lemma listMessages_deleteMessage_witness :
  let target := wire_messageId bob_room_message in
  let deleted_one := final (deleteMessage target carol_holds) in
  getMessage target deleted_one
  = unchanged
      (Some (set_deleted true (message_of "room" bob_room_message "hello room" false)))
      deleted_one ∧
  ∃ after,
    listMessages "room" deleted_one = unchanged after deleted_one ∧
    message_of "room" bob_room_message "hello room" false ∉ after.
Proof.
  destruct (listMessages_deleteMessage carol_holds "room"
              (wire_messageId bob_room_message))
    as (before & after & _ & Hlist & _ & Hafter & Hget).
  cbv zeta. split; [apply Hget; vm_compute; reflexivity|].
  exists after. split; [exact Hlist|].
  intros (k & Hne & Hk & _)%Hafter. apply Hne.
  destruct (decide (k = wire_messageId bob_room_message)) as [Heq|Hother]; [done|].
  exfalso. revert Hk.
  change (messages carol_holds)
    with (<[wire_messageId bob_room_message :=
              message_of "room" bob_room_message "hello room" false]>
            (∅ : gmap string ChatMessage)).
  rewrite lookup_insert_ne by done. by rewrite lookup_empty.
Defined.

(** Bob's message is still in carol's store after she deleted it and left
    the group. *)
Lemma store_never_forgets_witness :
  is_Some (messages (run_calls carol_goes_on carol_holds)
             !! wire_messageId bob_room_message).
Proof.
  apply (proj1 (store_never_forgets carol_holds carol_goes_on
                  (wire_messageId bob_room_message))).
  vm_compute. by eexists.
Defined.

